(** * TPS network core: a shallow embedding of [net/server.py]

    The server is Python 2 code built around one class, [TerrariaServer].
    Its methods are stateful and fallible, so they are embedded as
    computations of a state-and-exception monad [M] over [ServerState]:
    a computation maps a state to an outcome and the state reached.
    The outcome is a value, a raised exception, or [Blocks] for a
    blocking call that never returns; as in Python, the effects made
    before an exception is raised, or before the thread gets stuck,
    stay.

    The collaborators the server calls live in other files of the
    repository ([connection], [connectioninfo], [message],
    [messagesender], [messagehandlerservice], [util.timer]) or in the
    operating system.  Each is either modelled from its documented
    contract (the definition says so) or taken as a variable of the
    section.  Every call with an outside effect is appended to
    [trace], together with two marks of the server's own steps: a
    call of [__doProtocol] and an assignment to [networkState].  The
    theorems speak about this trace and about the registry.

    Embedded: [__init__], [__setupSocket], [__doProtocol],
    [__readThread], [__acceptLoop], [__mainLoop] and [start].  The
    three world-event handlers and the unused [__updateServer] only
    forward to the message sender and are left out. *)

From Stdlib Require Import ZArith Uint63 Floats Strings.Byte String Lia.
From stdpp Require Import base gmap list.

Local Open Scope Z_scope.

(** ** Python values and exceptions *)

(** The exceptions that can reach the [except Exception] clauses. *)
Inductive exn : Set :=
| ValueError            (* socket.recv with a negative buffer size *)
| IndexError            (* indexing an empty string *)
| AttributeError        (* attribute access on None *)
| StructError           (* struct.error: wrong buffer length *)
| SocketError           (* socket.error reported by the operating system *)
| SelectError           (* select.error reported by the operating system *)
| IOError               (* time.sleep with a duration it cannot sleep *)
| HandlerError (code : nat). (* anything a message handler raises *)

Inductive result (A : Type) : Type :=
| Return (a : A)
| Raise (ex : exn).
Arguments Return {A} a.
Arguments Raise {A} ex.

(** What a call comes to: it finishes, with a value or an exception,
    or it blocks and never returns.  A result is read as the outcome
    of a call that finished. *)
Inductive outcome (A : Type) : Type :=
| Done (r : result A)
| Blocks.
Arguments Done {A} r.
Arguments Blocks {A}.
Coercion Done : result >-> outcome.
Arguments pair {A B}%_type_scope & a b.

Abbreviation Socket := nat (only parsing).
Abbreviation Address := (string * Z)%type (only parsing).

Definition byte_val (b : byte) : Z := Z.of_N (Byte.to_N b).

(** Little-endian value of a byte string. *)
Fixpoint le_unsigned (bs : list byte) : Z :=
  match bs with
  | [] => 0
  | b :: rest => byte_val b + 256 * le_unsigned rest
  end.

(** Two's complement reading of a 32-bit pattern. *)
Definition to_signed32 (u : Z) : Z :=
  if u <? 2 ^ 31 then u else u - 2 ^ 32.

(** [struct.unpack('<i', s)[0]]: [HEADER_FORMAT], a little endian
    signed integer; the buffer must hold exactly four bytes. *)
Definition unpack_HEADER_FORMAT (s : list byte) : result Z :=
  if (length s =? 4)%nat then Return (to_signed32 (le_unsigned s))
  else Raise StructError.

(** [struct.unpack('<B', s)[0]]: [MESSAGE_TYPE_FORMAT], one unsigned
    byte. *)
Definition unpack_MESSAGE_TYPE_FORMAT (s : list byte) : result Z :=
  match s with
  | [b] => Return (byte_val b)
  | _ => Raise StructError
  end.

(** [s[0]] on a Python 2 [str]: a string of length one, or
    [IndexError]. *)
Definition str_getitem0 (s : list byte) : result (list byte) :=
  match s with
  | [] => Raise IndexError
  | b :: _ => Return [b]
  end.

(** [s[1:]]. *)
Definition str_from1 (s : list byte) : list byte := drop 1 s.

Definition PROTOCOL_VERSION : Z := 12.
Definition FPS : Z := 60.

(** The conversion Python applies to an [int] operand of a float
    operation (exact for the small constants used here). *)
Definition float_of_int (z : Z) : float := PrimFloat.of_uint63 (Uint63.of_Z z).

(** ** Data model *)

Inductive NetworkState : Set :=
| Starting   (* = 0 *)
| Running    (* = 1 *)
| Closing    (* = 2 *)
| Closed     (* = 3 *)
| Error.     (* = 4 *)

Global Instance NetworkState_eq_dec : EqDecision NetworkState.
Proof. solve_decision. Defined.

(** Modelled from the spec: [message.Message] is not among the sources.
    A message is a type tag and an opaque byte sequence; [Message(t)]
    starts with an empty body and [appendRaw] extends it. *)
Record Message : Set := { messageType : Z; body : list byte }.

Definition Message_new (t : Z) : Message := {| messageType := t; body := [] |}.
Definition appendRaw (raw : list byte) (m : Message) : Message :=
  {| messageType := messageType m; body := body m ++ raw |}.

(** Modelled from the spec: [connectioninfo.ConnectionInfo] is not
    among the sources.  The server builds it from a socket, a remote
    address and a client number, and reads and writes its [data]. *)
Record ConnectionInfo : Set := {
  socket : Socket;
  address : Address;
  clientNumber : Z;
  data : list byte
}.

Global Instance byte_eq_dec : EqDecision byte := Byte.byte_eq_dec.

Global Instance ConnectionInfo_eq_dec : EqDecision ConnectionInfo.
Proof. solve_decision. Defined.

Definition ConnectionInfo_new (sk : Socket) (addr : Address) (id : Z) : ConnectionInfo :=
  {| socket := sk; address := addr; clientNumber := id; data := [] |}.

Definition set_data (d : list byte) (c : ConnectionInfo) : ConnectionInfo :=
  {| socket := socket c; address := address c;
     clientNumber := clientNumber c; data := d |}.

(** Modelled from the spec: [connection.ConnectionManager] is not among
    the sources.  The registry maps a socket handle to its connection;
    removal is idempotent; looking up a socket that is not registered
    gives [None].  Client ids are assigned increasingly and never
    reused, and nothing more is known of them: [idPolicy] stands for
    the choice the registry makes, the first id from [None] and the
    id it would hand out after [id] from [Some id], and the registry
    follows it as far as the ids increase. *)
Record ConnectionManager : Type := {
  connections : gmap Socket ConnectionInfo;
  nextClientId : Z;             (* the id that the next request gets *)
  idPolicy : option Z -> Z
}.

Definition ConnectionManager_new (ids : option Z -> Z) : ConnectionManager :=
  {| connections := ∅; nextClientId := ids None; idPolicy := ids |}.

Definition cm_addConnection (c : ConnectionInfo) (cm : ConnectionManager) : ConnectionManager :=
  {| connections := <[socket c := c]> (connections cm);
     nextClientId := nextClientId cm;
     idPolicy := idPolicy cm |}.

Definition cm_removeConnection (c : option ConnectionInfo) (cm : ConnectionManager)
  : ConnectionManager :=
  match c with
  | Some c => {| connections := delete (socket c) (connections cm);
                 nextClientId := nextClientId cm;
                 idPolicy := idPolicy cm |}
  | None => cm
  end.

Definition cm_findConnection (sk : Socket) (cm : ConnectionManager) : option ConnectionInfo :=
  connections cm !! sk.

Definition cm_getListOfSocketsForSelect (cm : ConnectionManager) : list Socket :=
  (map_to_list (connections cm)).*1.

Definition cm_getNewClientId (cm : ConnectionManager) : Z * ConnectionManager :=
  let id := nextClientId cm in
  (id,
   {| connections := connections cm;
      nextClientId := Z.max (id + 1) (idPolicy cm (Some id));
      idPolicy := idPolicy cm |}).

Arguments cm_addConnection : simpl never.
Arguments cm_removeConnection : simpl never.

(** [connection.data = d] as the registry sees it.  A connection
    variable refers to an object; when the registry holds that very
    object (the entry under its socket equals [c]), the attribute
    written through the variable shows in the registry as well. *)
Definition cm_store (c : ConnectionInfo) (d : list byte) (cm : ConnectionManager)
  : ConnectionManager :=
  match connections cm !! socket c with
  | Some held =>
      if decide (held = c)
      then {| connections := <[socket c := set_data d c]> (connections cm);
              nextClientId := nextClientId cm;
              idPolicy := idPolicy cm |}
      else cm
  | None => cm
  end.
Arguments cm_store : simpl never.

(** Modelled from the spec: [util.timer.Timer] is not among the
    sources.  A timer remembers the clock reading of its last [start];
    [getTicks] is the time elapsed since. *)
Record Timer : Set := { startTicks : float }.

Definition Timer_new : Timer := {| startTicks := 0%float |}.

Inductive TimerName : Set := UpdateTimer | FpsTimer.
Inductive ThreadName : Set := ReadThread | AcceptLoop.
Inductive WorldEvent : Set := OnItemCreated | OnProjectileCreated | OnNewTileSquare.

(** ** The operating system, as far as the server sees it *)

(** What a connected peer will make [recv] see next: some bytes, a
    failure of the connection, or nothing at all from a peer that
    stays connected and silent.  An exhausted list is a peer that
    closed the connection. *)
Inductive arrival : Set :=
| Data (bs : list byte)
| Reset
| Stall.

Record SocketState : Set := {
  inbound : list arrival;
  readable : bool;       (* select reports it ready for reading *)
  exceptional : bool     (* select reports an error condition *)
}.

Record OS : Type := {
  peers : gmap Socket SocketState;
  backlog : list (result (Socket * Address * SocketState)); (* the next accepts *)
  socket_outcome : option exn;                 (* socket.socket(...) *)
  bind_outcome : option exn;                   (* bind *)
  listen_outcome : option exn;                 (* listen *)
  select_outcomes : list (option exn);         (* the next selects: an error, or none *)
  clock_reads : nat                            (* readings of the clock so far *)
}.

(** ** Calls with an outside effect

    A connection object is identified by its socket handle, the key
    under which the registry holds it; [None] is Python's [None]. *)

Inductive Event : Type :=
| EvLogDebug (msg : string)
| EvLogError (ex : exn)
| EvAddHandler (ev : WorldEvent)
| EvSocket
| EvBind (addr : string) (port : Z)
| EvListen (n : Z)
| EvNetworkState (st : NetworkState)            (* self.networkState = st *)
| EvRecv (sk : Socket) (bufsize : Z)
| EvSelect (rlist : list Socket)
| EvAccept
| EvAddConnection (c : ConnectionInfo)
| EvRemoveConnection (c : option Socket)
| EvDisconnected (c : Socket)                   (* sendPlayerDisconnectedToOtherClients *)
| EvDoProtocol (c : option Socket)              (* entry of __doProtocol *)
| EvProcessMessage (m : Message) (c : ConnectionInfo)
| EvWorldUpdate (dt : float)
| EvSendWorldUpdate                             (* sendWorldUpdateToAllClients *)
| EvSyncPlayers
| EvTimerStart (t : TimerName)
| EvSleep (secs : float)
| EvStartThread (t : ThreadName).

(** ** The server object *)

Record ServerState (World : Type) : Type := {
  listenAddress : string;
  listenPort : Z;
  world : World;
  networkState : NetworkState;
  connectionManager : ConnectionManager;
  isRunning : bool;
  updateTimer : Timer;
  fpsTimer : Timer;
  os : OS;
  trace : list Event
}.
Arguments listenAddress {World} _.
Arguments listenPort {World} _.
Arguments world {World} _.
Arguments networkState {World} _.
Arguments connectionManager {World} _.
Arguments isRunning {World} _.
Arguments updateTimer {World} _.
Arguments fpsTimer {World} _.
Arguments os {World} _.
Arguments trace {World} _.

(** ** The state-and-exception monad *)

Definition M (S A : Type) : Type := S -> outcome A * S.

Definition ret {S A} (a : A) : M S A := fun s => (Return a, s).

Definition bind {S A B} (m : M S A) (k : A -> M S B) : M S B :=
  fun s => match m s with
           | (Done (Return a), s') => k a s'
           | (Done (Raise ex), s') => (Raise ex, s')
           | (Blocks, s') => (Blocks, s')
           end.

Definition lift {S A} (r : result A) : M S A := fun s => (r, s).

Definition gets {S A} (f : S -> A) : M S A := fun s => (Return (f s), s).

Definition modify {S} (f : S -> S) : M S unit := fun s => (Return tt, f s).

(** [try: body except Exception as ex: handler ex]. *)
Definition try_except {S A} (body : M S A) (handler : exn -> M S A) : M S A :=
  fun s => match body s with
           | (Done (Return a), s') => (Return a, s')
           | (Done (Raise ex), s') => handler ex s'
           | (Blocks, s') => (Blocks, s')
           end.

Notation "x <- m ;; k" := (bind m (fun x => k))
  (at level 100, m at next level, right associativity).
Notation "m ;; k" := (bind m (fun _ => k))
  (at level 100, right associativity).

(** The outcome of running a [while] loop on bounded fuel. *)
Inductive LoopEnd : Set :=
| Exited        (* the loop condition was found false *)
| Blocked       (* [accept] found no client and never returned *)
| StillLooping. (* the fuel ran out with the condition still true *)

Section Server.

Context {World : Type}.

(** [messageHandlerService.processMessage]: an external handler that
    works on the world and may raise. *)
Variable processMessage : Message -> ConnectionInfo -> World -> result unit * World.
(** [world.update(dt)]. *)
Variable world_update : float -> World -> World.
(** The successive readings of the clock behind the timers. *)
Variable clock : nat -> float.
(** The client ids the registry chooses. *)
Variable client_ids : option Z -> Z.

Abbreviation State := (ServerState World).

(** *** Field updates *)

Definition with_world (v : World) (s : State) : State :=
  Build_ServerState _ (listenAddress s) (listenPort s) v (networkState s)
    (connectionManager s) (isRunning s) (updateTimer s) (fpsTimer s)
    (os s) (trace s).
Definition with_networkState (v : NetworkState) (s : State) : State :=
  Build_ServerState _ (listenAddress s) (listenPort s) (world s) v
    (connectionManager s) (isRunning s) (updateTimer s) (fpsTimer s)
    (os s) (trace s).
Definition with_connectionManager (v : ConnectionManager) (s : State) : State :=
  Build_ServerState _ (listenAddress s) (listenPort s) (world s) (networkState s)
    v (isRunning s) (updateTimer s) (fpsTimer s)
    (os s) (trace s).
Definition with_isRunning (v : bool) (s : State) : State :=
  Build_ServerState _ (listenAddress s) (listenPort s) (world s) (networkState s)
    (connectionManager s) v (updateTimer s) (fpsTimer s)
    (os s) (trace s).
Definition with_updateTimer (v : Timer) (s : State) : State :=
  Build_ServerState _ (listenAddress s) (listenPort s) (world s) (networkState s)
    (connectionManager s) (isRunning s) v (fpsTimer s)
    (os s) (trace s).
Definition with_fpsTimer (v : Timer) (s : State) : State :=
  Build_ServerState _ (listenAddress s) (listenPort s) (world s) (networkState s)
    (connectionManager s) (isRunning s) (updateTimer s) v
    (os s) (trace s).
Definition with_os (v : OS) (s : State) : State :=
  Build_ServerState _ (listenAddress s) (listenPort s) (world s) (networkState s)
    (connectionManager s) (isRunning s) (updateTimer s) (fpsTimer s)
    v (trace s).
Definition with_trace (v : list Event) (s : State) : State :=
  Build_ServerState _ (listenAddress s) (listenPort s) (world s) (networkState s)
    (connectionManager s) (isRunning s) (updateTimer s) (fpsTimer s)
    (os s) v.

Definition os_with_peers (v : gmap Socket SocketState) (o : OS) : OS :=
  Build_OS v (backlog o) (socket_outcome o) (bind_outcome o) (listen_outcome o)
    (select_outcomes o) (clock_reads o).
Definition os_with_backlog (v : list (result (Socket * Address * SocketState))) (o : OS)
  : OS :=
  Build_OS (peers o) v (socket_outcome o) (bind_outcome o) (listen_outcome o)
    (select_outcomes o) (clock_reads o).
Definition os_with_select_outcomes (v : list (option exn)) (o : OS) : OS :=
  Build_OS (peers o) (backlog o) (socket_outcome o) (bind_outcome o)
    (listen_outcome o) v (clock_reads o).
Definition os_with_clock_reads (v : nat) (o : OS) : OS :=
  Build_OS (peers o) (backlog o) (socket_outcome o) (bind_outcome o)
    (listen_outcome o) (select_outcomes o) v.

(** *** Calls to the collaborators *)

Definition emit (e : Event) : M State unit :=
  modify (fun s => with_trace (trace s ++ [e]) s).

(** [log.debug] and [log.error]; the text that [str()] renders into a
    debug message is left out. *)
Definition log_debug (msg : string) : M State unit := emit (EvLogDebug msg).
Definition log_error (ex : exn) : M State unit := emit (EvLogError ex).

(** Attribute access on a connection variable, which may hold [None]. *)
Definition getattr (connection : option ConnectionInfo) : M State ConnectionInfo :=
  match connection with
  | Some c => ret c
  | None => lift (Raise AttributeError)
  end.

Definition removeConnection (connection : option ConnectionInfo) : M State unit :=
  emit (EvRemoveConnection (socket <$> connection));;
  modify (fun s => with_connectionManager
                     (cm_removeConnection connection (connectionManager s)) s).

Definition findConnection (sk : Socket) : M State (option ConnectionInfo) :=
  gets (fun s => cm_findConnection sk (connectionManager s)).

(** Modelled from the spec: [messagesender.MessageSender] is not among
    the sources; its sends are fault isolated, so the calls return. *)
Definition sendPlayerDisconnectedToOtherClients (c : ConnectionInfo) : M State unit :=
  emit (EvDisconnected (socket c)).
Definition sendWorldUpdateToAllClients : M State unit := emit EvSendWorldUpdate.
Definition syncPlayers : M State unit := emit EvSyncPlayers.

Definition call_processMessage (m : Message) (c : ConnectionInfo) : M State unit :=
  emit (EvProcessMessage m c);;
  fun s => let (r, w) := processMessage m c (world s) in (r, with_world w s).

(** [sock.recv(bufsize)] on a blocking stream socket: [ValueError] for
    a negative size and the empty string at once for size zero;
    otherwise at most [bufsize] of the bytes that have arrived, the
    empty string once the peer has closed, [socket.error] when the
    connection failed, and no return at all while the peer stays
    silent.  [recv_from] is its effect on what the peer still has to
    deliver. *)
Definition consume (n : nat) (bs : list byte) (rest : list arrival) : list arrival :=
  match drop n bs with
  | [] => rest
  | more => Data more :: rest
  end.

Definition recv_from (bufsize : Z) (script : list arrival)
  : outcome (list byte) * list arrival :=
  if bufsize <? 0 then (Raise ValueError, script)
  else if bufsize =? 0 then (Return [], script)
  else match script with
       | [] => (Return [], [])
       | Reset :: rest => (Raise SocketError, rest)
       | Stall :: _ => (Blocks, script)
       | Data bs :: rest =>
           (Return (take (Z.to_nat bufsize) bs), consume (Z.to_nat bufsize) bs rest)
       end.

Definition set_inbound (script : list arrival) (st : SocketState) : SocketState :=
  {| inbound := script; readable := readable st; exceptional := exceptional st |}.

Definition socket_recv (sk : Socket) (bufsize : Z) : M State (list byte) :=
  emit (EvRecv sk bufsize);;
  fun s =>
    match peers (os s) !! sk with
    | None => (Raise (if bufsize <? 0 then ValueError else SocketError), s)
    | Some st =>
        let (r, script) := recv_from bufsize (inbound st) in
        (r, with_os (os_with_peers (<[sk := set_inbound script st]> (peers (os s)))
                       (os s)) s)
    end.

(** *** [__doProtocol] *)

(** The body of the [try]. *)
Definition doProtocol_try (connection : option ConnectionInfo) : M State unit :=
  c <- getattr connection;;
  header <- socket_recv (socket c) 4;;
  if (length header <? 4)%nat then
    log_debug "Got invalid header...disconnecting client ";;
    removeConnection connection;;
    sendPlayerDisconnectedToOtherClients c
  else
    msgLen <- lift (unpack_HEADER_FORMAT header);;
    d <- socket_recv (socket c) msgLen;;
    (* connection.data = ... *)
    let c' := set_data d c in
    modify (fun s => with_connectionManager (cm_store c d (connectionManager s)) s);;
    b <- lift (str_getitem0 d);;
    messageType <- lift (unpack_MESSAGE_TYPE_FORMAT b);;
    let message := appendRaw (str_from1 d) (Message_new messageType) in
    call_processMessage message c'.

Definition doProtocol (connection : option ConnectionInfo) : M State unit :=
  emit (EvDoProtocol (socket <$> connection));;
  try_except (doProtocol_try connection)
    (fun ex => log_error ex;; removeConnection connection).

(** *** [__init__] *)

(** The server object as the constructor leaves it ([password] and
    [motd] play no part in the network core and are left out). *)
Definition init (listenAddr : string) (port : Z) (w : World) (o : OS) : State :=
  {| listenAddress := listenAddr;
     listenPort := port;
     world := w;
     networkState := Closed;
     connectionManager := ConnectionManager_new client_ids;
     isRunning := false;
     updateTimer := Timer_new;
     fpsTimer := Timer_new;
     os := o;
     trace := [EvAddHandler OnItemCreated; EvAddHandler OnProjectileCreated;
               EvAddHandler OnNewTileSquare] |}.

(** *** [__setupSocket] *)

(** [self.networkState = st]. *)
Definition set_networkState (st : NetworkState) : M State unit :=
  emit (EvNetworkState st);;
  modify (with_networkState st).

(** A call into the socket layer that either returns or raises. *)
Definition os_call (e : Event) (outcome : OS -> option exn) : M State unit :=
  emit e;;
  fun s => match outcome (os s) with
           | Some ex => (Raise ex, s)
           | None => (Return tt, s)
           end.

Definition setupSocket : M State unit :=
  try_except
    (os_call EvSocket socket_outcome;;
     addr <- gets listenAddress;;
     port <- gets listenPort;;
     os_call (EvBind addr port) bind_outcome;;
     os_call (EvListen 5) listen_outcome;;
     log_debug "Server listening on ";;
     set_networkState Running)
    (fun ex => log_error ex;;
               set_networkState Error).

(** *** [__readThread] *)

Fixpoint for_each {A} (l : list A) (f : A -> M State unit) : M State unit :=
  match l with
  | [] => ret tt
  | x :: rest => f x;; for_each rest f
  end.

Definition reports (flag : SocketState -> bool) (o : OS) (sk : Socket) : bool :=
  match peers o !! sk with
  | Some st => flag st
  | None => false
  end.

(** The error the next [select] raises, if any, and the state after
    the call. *)
Definition select_failure (o : OS) : option exn :=
  match select_outcomes o with
  | Some ex :: _ => Some ex
  | _ => None
  end.

Definition after_select (socketList : list Socket) (s : State) : State :=
  with_os (os_with_select_outcomes (tail (select_outcomes (os s))) (os s))
    (with_trace (trace s ++ [EvSelect socketList]) s).

(** [select.select(socketList, [], socketList, 0.1)]: the sockets of
    the list that are ready for reading, and those with an error
    condition, each in the order of the list; or the error that the
    operating system reports for the call.  With its timeout the call
    does not block. *)
Definition select_select (socketList : list Socket)
  : M State (list Socket * list Socket) :=
  fun s =>
    match select_failure (os s) with
    | Some ex => (Raise ex, after_select socketList s)
    | None =>
        (Return (filter (fun sk => reports readable (os s) sk) socketList,
                 filter (fun sk => reports exceptional (os s) sk) socketList),
         after_select socketList s)
    end.

Definition readThread_errors (socketsWithError : list Socket) : M State unit :=
  for_each socketsWithError
    (fun serr => c <- findConnection serr;; removeConnection c).

Definition readThread_reads (socketsToRead : list Socket) : M State unit :=
  for_each socketsToRead
    (fun sk => c <- findConnection sk;; doProtocol c).

(** One pass through the body of the [while]. *)
Definition readThread_body : M State unit :=
  socketList <- gets (fun s => cm_getListOfSocketsForSelect (connectionManager s));;
  ready <- select_select socketList;;
  readThread_errors (snd ready);;
  readThread_reads (fst ready).

Fixpoint readThread (fuel : nat) : M State LoopEnd :=
  st <- gets networkState;;
  if decide (st = Running) then
    match fuel with
    | O => ret StillLooping
    | S fuel' => readThread_body;; readThread fuel'
    end
  else ret Exited.

(** *** [__acceptLoop] *)

(** [self.socket.accept()]: the next client of the backlog with the
    socket state it brings; [None] when no client ever arrives and the
    call blocks for good. *)
Definition socket_accept : M State (option (Socket * Address)) :=
  emit EvAccept;;
  fun s =>
    match backlog (os s) with
    | [] => (Return None, s)
    | Raise ex :: rest => (Raise ex, with_os (os_with_backlog rest (os s)) s)
    | Return (clientsock, clientaddr, st) :: rest =>
        (Return (Some (clientsock, clientaddr)),
         with_os (os_with_peers (<[clientsock := st]> (peers (os s)))
                    (os_with_backlog rest (os s))) s)
    end.

Definition getNewClientId : M State Z :=
  fun s => let (id, cm) := cm_getNewClientId (connectionManager s) in
           (Return id, with_connectionManager cm s).

Definition addConnection (c : ConnectionInfo) : M State unit :=
  emit (EvAddConnection c);;
  modify (fun s => with_connectionManager (cm_addConnection c (connectionManager s)) s).

(** One pass through the body of the [while]; [false] when [accept]
    blocks for good. *)
Definition acceptLoop_body : M State bool :=
  a <- socket_accept;;
  match a with
  | None => ret false
  | Some (clientsock, clientaddr) =>
      log_debug "New connection from ";;
      id <- getNewClientId;;
      let connection := ConnectionInfo_new clientsock clientaddr id in
      log_debug "Client id: ";;
      addConnection connection;;
      ret true
  end.

Fixpoint acceptLoop (fuel : nat) : M State LoopEnd :=
  st <- gets networkState;;
  if decide (st = Running) then
    match fuel with
    | O => ret StillLooping
    | S fuel' =>
        accepted <- acceptLoop_body;;
        if accepted : bool then acceptLoop fuel' else ret Blocked
    end
  else ret Exited.

(** *** [__mainLoop] *)

Definition clock_now : M State float :=
  fun s => (Return (clock (clock_reads (os s))),
            with_os (os_with_clock_reads (S (clock_reads (os s))) (os s)) s).

Definition get_timer (t : TimerName) (s : State) : Timer :=
  match t with UpdateTimer => updateTimer s | FpsTimer => fpsTimer s end.

Definition set_timer (t : TimerName) (v : Timer) (s : State) : State :=
  match t with UpdateTimer => with_updateTimer v s | FpsTimer => with_fpsTimer v s end.

Definition timer_start (t : TimerName) : M State unit :=
  emit (EvTimerStart t);;
  n <- clock_now;;
  modify (set_timer t {| startTicks := n |}).

Definition timer_getTicks (t : TimerName) : M State float :=
  n <- clock_now;;
  tm <- gets (get_timer t);;
  ret (PrimFloat.sub n (startTicks tm)).

(** [time.sleep(secs)]: it returns after a duration that is a number
    and not negative, and raises [IOError] for any other. *)
Definition sleep_returns (secs : float) : bool :=
  PrimFloat.leb 0%float secs && PrimFloat.ltb secs infinity.

Definition time_sleep (secs : float) : M State unit :=
  emit (EvSleep secs);;
  if sleep_returns secs then ret tt else lift (Raise IOError).

(** [self.world.update(dt)], taken to return. *)
Definition call_world_update (dt : float) : M State unit :=
  emit (EvWorldUpdate dt);;
  modify (fun s => with_world (world_update dt (world s)) s).

(** [1000.0 / FPS], the per-tick budget. *)
Definition tick_budget : float := PrimFloat.div 1000%float (float_of_int FPS).

(** The [if] that paces the loop. *)
Definition mainLoop_pace : M State unit :=
  elapsed <- timer_getTicks FpsTimer;;
  if PrimFloat.ltb elapsed tick_budget then
    again <- timer_getTicks FpsTimer;;
    let sleepTime := PrimFloat.div (PrimFloat.sub tick_budget again) 1000%float in
    time_sleep sleepTime
  else ret tt.

(** The [if] that sends the full synchronisation. *)
Definition mainLoop_sync : M State unit :=
  ticks <- timer_getTicks UpdateTimer;;
  if PrimFloat.ltb 3600%float ticks then
    sendWorldUpdateToAllClients;;
    syncPlayers;;
    timer_start UpdateTimer
  else ret tt.

(** One pass through the body of the [while]. *)
Definition mainLoop_body : M State unit :=
  timer_start FpsTimer;;
  call_world_update 1%float;;
  mainLoop_sync;;
  mainLoop_pace.

Fixpoint mainLoop_while (fuel : nat) : M State LoopEnd :=
  running <- gets isRunning;;
  if running : bool then
    match fuel with
    | O => ret StillLooping
    | S fuel' => mainLoop_body;; mainLoop_while fuel'
    end
  else ret Exited.

Definition mainLoop (fuel : nat) : M State LoopEnd :=
  timer_start UpdateTimer;;
  mainLoop_while fuel.

(** *** [start] *)

(** [thread.start_new_thread]: the thread is recorded as started; what
    it does from then on is its loop ([readThread], [acceptLoop]) run
    on the state it meets. *)
Definition start_new_thread (t : ThreadName) : M State unit := emit (EvStartThread t).

Definition start (fuel : nat) : M State LoopEnd :=
  log_debug "Server starting up...";;
  setupSocket;;
  start_new_thread ReadThread;;
  start_new_thread AcceptLoop;;
  modify (with_isRunning true);;
  mainLoop fuel.

End Server.

Arguments recv_from : simpl never.
Arguments unpack_HEADER_FORMAT : simpl never.
Arguments sleep_returns : simpl never.

(** ** Reading a trace *)

(** Predicates on events, and how often one holds in a list of
    events. *)
Definition is_dispatch (e : Event) : bool :=
  match e with EvProcessMessage _ _ => true | _ => false end.

Definition is_removal_of (sk : Socket) (e : Event) : bool :=
  match e with
  | EvRemoveConnection (Some sk') => bool_decide (sk' = sk)
  | _ => false
  end.

Definition is_notice (e : Event) : bool :=
  match e with EvDisconnected _ => true | _ => false end.

Definition count (p : Event -> bool) (evs : list Event) : nat :=
  length (List.filter p evs).


Definition is_world_sync (e : Event) : bool :=
  match e with EvSendWorldUpdate => true | _ => false end.

Definition is_player_sync (e : Event) : bool :=
  match e with EvSyncPlayers => true | _ => false end.

Definition is_update_timer_start (e : Event) : bool :=
  match e with EvTimerStart UpdateTimer => true | _ => false end.

Definition is_world_update (e : Event) : bool :=
  match e with EvWorldUpdate _ => true | _ => false end.

(** The values assigned to [networkState], in order. *)
Definition lifecycle_step (e : Event) : option NetworkState :=
  match e with EvNetworkState st => Some st | _ => None end.

Definition lifecycle (evs : list Event) : list NetworkState :=
  omap lifecycle_step evs.

(** The first of [socket], [bind] and [listen] to fail, if any. *)
Definition setup_failure (o : OS) : option exn :=
  match socket_outcome o with
  | Some ex => Some ex
  | None => match bind_outcome o with
            | Some ex => Some ex
            | None => listen_outcome o
            end
  end.

(** The calls into the socket layer that [__setupSocket] gets to. *)
Definition setup_calls (addr : string) (port : Z) (o : OS) : list Event :=
  EvSocket ::
  match socket_outcome o with
  | Some _ => []
  | None => EvBind addr port ::
            match bind_outcome o with
            | Some _ => []
            | None => [EvListen 5]
            end
  end.

(** How [__setupSocket] ends. *)
Definition setup_end (o : OS) : list Event :=
  match setup_failure o with
  | Some ex => [EvLogError ex; EvNetworkState Error]
  | None => [EvLogDebug "Server listening on "; EvNetworkState Running]
  end.

(** The events of the full synchronisation, when it is due. *)
Definition sync_events (due : bool) : list Event :=
  if due then [EvSendWorldUpdate; EvSyncPlayers; EvTimerStart UpdateTimer] else [].

(** Every registered client number was handed out before. *)
Definition cm_ids_fresh (cm : ConnectionManager) : Prop :=
  forall sk c, connections cm !! sk = Some c -> clientNumber c < nextClientId cm.

(** What the handler's outcome adds to the trace of [__doProtocol]. *)
Definition after_handler (sk : Socket) (r : result unit) : list Event :=
  match r with
  | Return _ => []
  | Raise ex => [EvLogError ex; EvRemoveConnection (Some sk)]
  end.

(** No peer has a silence to deliver, the one of socket [skip] apart:
    a [recv] on any other socket returns or raises. *)
Definition stall_free_but {World} (skip : option Socket) (s : ServerState World) : Prop :=
  forall sk st, Some sk <> skip -> peers (os s) !! sk = Some st -> Stall ∉ inbound st.

Definition stall_free {World} (s : ServerState World) : Prop := stall_free_but None s.

(** None of the selects to come raises. *)
Definition selects_well (o : OS) : Prop :=
  Forall (fun outcome => outcome = None) (select_outcomes o).

(** The duration handed to [time.sleep] by a pass of the main loop
    that starts its frame timer at reading [n] of the clock and reads
    it for the sleep at reading [m]. *)
Definition sleep_time (clock : nat -> float) (n m : nat) : float :=
  PrimFloat.div (PrimFloat.sub tick_budget (PrimFloat.sub (clock m) (clock n))) 1000%float.

(** A clock is steady up to reading [N] when every such duration of a
    pass that starts before [N] can be slept: the reading for the
    sleep is the third or the fourth after the start of the frame
    timer. *)
Definition steady_until (clock : nat -> float) (N : nat) : bool :=
  forallb (fun n => sleep_returns (sleep_time clock n (n + 3)) &&
                    sleep_returns (sleep_time clock n (n + 4)))
    (seq 0 N).
Arguments steady_until : simpl never.

Definition registered {World} (sk : Socket) (s : ServerState World) : Prop :=
  is_Some (connections (connectionManager s) !! sk).

(** The events [__doProtocol] may add when it works on the connection
    of socket [sk]. *)
Definition about (sk : Socket) (e : Event) : Prop :=
  match e with
  | EvRecv sk' _ => sk' = sk
  | EvLogDebug _ | EvLogError _ => True
  | EvRemoveConnection (Some sk') => sk' = sk
  | EvDisconnected sk' => sk' = sk
  | EvProcessMessage _ c => socket c = sk
  | _ => False
  end.

(** The events that name the connection of socket [sk]. *)
Definition mentions (sk : Socket) (e : Event) : Prop :=
  match e with
  | EvRecv sk' _ => sk' = sk
  | EvRemoveConnection (Some sk') => sk' = sk
  | EvDisconnected sk' => sk' = sk
  | EvDoProtocol (Some sk') => sk' = sk
  | EvProcessMessage _ c => socket c = sk
  | EvAddConnection c => socket c = sk
  | _ => False
  end.

(** The arguments of the calls of [__doProtocol], in order. *)
Definition protocol_call (e : Event) : option (option Socket) :=
  match e with EvDoProtocol c => Some c | _ => None end.

Definition protocol_calls (evs : list Event) : list (option Socket) :=
  omap protocol_call evs.

(** The registry files every connection under its own socket. *)
Definition cm_wf (cm : ConnectionManager) : Prop :=
  forall sk c, connections cm !! sk = Some c -> socket c = sk.

(** ** Scenarios

    A server with one registered client, on socket 7, whose peer will
    deliver [script]; a handler that accepts every message and one
    that rejects every message; a world that ignores time. *)

Definition quiet_handler (m : Message) (c : ConnectionInfo) (w : unit)
  : result unit * unit := (Return tt, w).


Definition still_world (dt : float) (w : unit) : unit := w.

(** A registry that numbers its clients 0, 1, 2, ... and one that
    numbers them 100, 110, 120, ... *)
Definition counting (last : option Z) : Z :=
  match last with None => 0 | Some id => id + 1 end.

Definition by_tens (last : option Z) : Z :=
  match last with None => 100 | Some id => id + 10 end.

Definition client7 : ConnectionInfo :=
  ConnectionInfo_new 7%nat ("10.0.0.1"%string, 4000) 0.

Definition client9 : ConnectionInfo :=
  ConnectionInfo_new 9%nat ("10.0.0.2"%string, 4001) 1.

Definition peer (script : list arrival) (r e : bool) : SocketState :=
  {| inbound := script; readable := r; exceptional := e |}.

Definition os_of (ps : gmap Socket SocketState)
    (pending : list (result (Socket * Address * SocketState)))
    (bind_result : option exn) : OS :=
  {| peers := ps; backlog := pending; socket_outcome := None;
     bind_outcome := bind_result; listen_outcome := None;
     select_outcomes := []; clock_reads := 0 |}.

(** The server right after [__init__]. *)
Definition fresh_server (o : OS) : ServerState unit :=
  init counting "0.0.0.0" 7777 tt o.

(** A running server that has accepted [client7]. *)
Definition serving (script : list arrival) : ServerState unit :=
  with_networkState Running
    (with_connectionManager
       (cm_addConnection client7
          (snd (cm_getNewClientId (ConnectionManager_new counting))))
       (fresh_server (os_of {[ 7%nat := peer script true false ]} [] None))).

(** A running server with [client7] ready for reading and [client9]
    both ready for reading and reported with an error condition. *)
Definition two_clients : ServerState unit :=
  with_networkState Running
    (with_connectionManager
       (cm_addConnection client9
          (snd (cm_getNewClientId
                  (cm_addConnection client7
                     (snd (cm_getNewClientId (ConnectionManager_new counting)))))))
       (fresh_server
          (os_of {[ 7%nat := peer [Data [x01; x00; x00; x00; x2a]] true false;
                    9%nat := peer [Reset] true true ]} [] None))).

(** The frame of the specification's scenario. *)
Definition scenario_frame : list byte :=
  [x05; x00; x00; x00; x01; xaa; xbb; xcc; xdd].

(** A running server with two clients ready for reading, where the
    peer of socket 9 has sent a header announcing five bytes and then
    stays silent. *)
Definition stalled_client : ServerState unit :=
  with_networkState Running
    (with_connectionManager
       (cm_addConnection client9
          (snd (cm_getNewClientId
                  (cm_addConnection client7
                     (snd (cm_getNewClientId (ConnectionManager_new counting)))))))
       (fresh_server
          (os_of {[ 7%nat := peer [Data [x01; x00; x00; x00; x2a]] true false;
                    9%nat := peer [Data [x05; x00; x00; x00]; Stall] true false ]}
             [] None))).

(** Clocks that advance by 4, by 5 and by 6 time units per reading.
    A pass of the main loop reads the clock up to four times before it
    computes the sleep, which makes 16, 20 or 24 units of a budget of
    16.67. *)
Definition clock4 (n : nat) : float :=
  PrimFloat.mul 4%float (PrimFloat.of_uint63 (Uint63.of_Z (Z.of_nat n))).

Definition clock5 (n : nat) : float :=
  PrimFloat.mul 5%float (PrimFloat.of_uint63 (Uint63.of_Z (Z.of_nat n))).

Definition clock6 (n : nat) : float :=
  PrimFloat.mul 6%float (PrimFloat.of_uint63 (Uint63.of_Z (Z.of_nat n))).

(** ** Reading a trace, continued *)

(** The messages dispatched for the connection of socket [sk], in
    order. *)
Definition dispatch_for (sk : Socket) (e : Event) : option (Message * ConnectionInfo) :=
  match e with
  | EvProcessMessage m c => if decide (socket c = sk) then Some (m, c) else None
  | _ => None
  end.

Definition dispatches_for (sk : Socket) (evs : list Event) : list (Message * ConnectionInfo) :=
  omap (dispatch_for sk) evs.

Definition is_removal (e : Event) : bool :=
  match e with EvRemoveConnection (Some _) => true | _ => false end.

Definition is_recv_on (sk : Socket) (e : Event) : bool :=
  match e with EvRecv sk' _ => bool_decide (sk' = sk) | _ => false end.

(** The connections added, in order. *)
Definition added_connection (e : Event) : option ConnectionInfo :=
  match e with EvAddConnection c => Some c | _ => None end.

Definition added_connections (evs : list Event) : list ConnectionInfo :=
  omap added_connection evs.



(** The message of a payload and the connection after it was stored. *)
Definition message_of (payload : list byte) : Message :=
  match payload with
  | [] => Message_new 0
  | b :: rest => {| messageType := byte_val b; body := rest |}
  end.


(** The connections the accept loop builds for the clients of a
    backlog, with the ids the registry [cm] hands out one after the
    other. *)
Fixpoint accepted (cm : ConnectionManager) (clients : list (Socket * Address * SocketState))
  : list ConnectionInfo :=
  match clients with
  | [] => []
  | (sk, addr, _) :: rest =>
      ConnectionInfo_new sk addr (fst (cm_getNewClientId cm))
      :: accepted (snd (cm_getNewClientId cm)) rest
  end.

(** What a step that only serves connections may change: the world,
    what the peers still have to deliver, the selects still to come
    (some are used up), the entries of the registry (none is added),
    and the trace, to which it adds no assignment of the network state
    and no registration. *)
Definition serves_only {World} (s s' : ServerState World) : Prop :=
  networkState s' = networkState s /\
  isRunning s' = isRunning s /\
  updateTimer s' = updateTimer s /\
  fpsTimer s' = fpsTimer s /\
  backlog (os s') = backlog (os s) /\
  clock_reads (os s') = clock_reads (os s) /\
  select_outcomes (os s') `suffix_of` select_outcomes (os s) /\
  nextClientId (connectionManager s') = nextClientId (connectionManager s) /\
  (forall sk, connections (connectionManager s) !! sk = None ->
              connections (connectionManager s') !! sk = None) /\
  exists evs, trace s' = trace s ++ evs /\
              lifecycle evs = [] /\
              added_connections evs = [].

(** What serving leaves of a registry: every entry that is there
    afterwards was there before with the same socket and client
    number, and the next client id is the same. *)
Definition cm_keeps (cm cm' : ConnectionManager) : Prop :=
  nextClientId cm' = nextClientId cm /\
  forall sk c', connections cm' !! sk = Some c' ->
    exists c, connections cm !! sk = Some c /\
              socket c' = socket c /\ clientNumber c' = clientNumber c.

(** No two registered connections share a client id. *)
Definition cm_ids_distinct (cm : ConnectionManager) : Prop :=
  forall sk1 sk2 c1 c2,
    connections cm !! sk1 = Some c1 -> connections cm !! sk2 = Some c2 ->
    clientNumber c1 = clientNumber c2 -> sk1 = sk2.

Definition registry_ok (cm : ConnectionManager) : Prop :=
  cm_wf cm /\ cm_ids_fresh cm /\ cm_ids_distinct cm.

(** A dispatch hands over the message cut from the payload that the
    connection holds. *)
Definition dispatch_ok (e : Event) : Prop :=
  match e with
  | EvProcessMessage m c =>
      data c <> [] /\ m = message_of (data c) /\ 0 <= messageType m < 256
  | _ => True
  end.

(** A step that serves well: it keeps the registry in the sense of
    [cm_keeps] and every dispatch it adds to the trace is well formed. *)
Definition serves_well {World} (s s' : ServerState World) : Prop :=
  cm_keeps (connectionManager s) (connectionManager s') /\
  exists evs, trace s' = trace s ++ evs /\ Forall dispatch_ok evs.

(** A step that leaves the connection of socket [sk] alone: from a
    registry that files every connection under its socket, it leaves
    such a registry, the entry and the peer of [sk] as they were, adds
    no silent peer, and adds no event that names [sk]. *)
Definition elsewhere {World} (sk : Socket) (s s' : ServerState World) : Prop :=
  cm_wf (connectionManager s) ->
  cm_wf (connectionManager s') /\
  connections (connectionManager s') !! sk = connections (connectionManager s) !! sk /\
  peers (os s') !! sk = peers (os s) !! sk /\
  (stall_free_but (Some sk) s -> stall_free_but (Some sk) s') /\
  exists evs, trace s' = trace s ++ evs /\
              Forall (fun e => ~ mentions sk e) evs.

(** ** Schedules

    The three loops run in threads of their own.  A schedule lists
    whose turn it is; a turn is one evaluation of the loop's condition
    and, when it holds, one pass through its body.  A turn that ends
    in an exception or in a blocking call ends with the state
    reached. *)
Inductive Turn : Set := ReadTurn | AcceptTurn | MainTurn.

Section Schedule.

Context {World : Type}.
Variable processMessage : Message -> ConnectionInfo -> World -> result unit * World.
Variable world_update : float -> World -> World.
Variable clock : nat -> float.

Definition take_turn (t : Turn) (s : ServerState World) : ServerState World :=
  match t with
  | ReadTurn => snd (readThread processMessage 1 s)
  | AcceptTurn => snd (acceptLoop 1 s)
  | MainTurn => snd (mainLoop_while world_update clock 1 s)
  end.

Definition run_schedule (ts : list Turn) (s : ServerState World) : ServerState World :=
  foldl (fun s t => take_turn t s) s ts.

End Schedule.

(** Case analysis on the innermost scrutinee the goal is stuck on. *)
Ltac split_path :=
  match goal with
  | |- context [match ?x with _ => _ end] =>
      lazymatch x with
      | context [match _ with _ => _ end] => fail
      | _ => destruct x eqn:?
      end
  end.

Ltac run_paths :=
  repeat (split_path; cbn; rewrite ?lookup_insert_eq in *; simplify_eq/=);
  repeat match goal with u : unit |- _ => destruct u end.

(** The same, following the equations among the hypotheses first. *)
Ltac run_known :=
  repeat (cbn;
          first [ match goal with
                  | H : ?x = _ |- context [match ?x with _ => _ end] => rewrite H
                  end
                | rewrite lookup_insert_eq
                | rewrite bool_decide_true by reflexivity
                | split_path; simplify_eq/= ]);
  repeat match goal with u : unit |- _ => destruct u end.

(** A list of arrivals written out holds no silence unless one is
    written in it. *)
Ltac no_stall :=
  let H := fresh in
  intros H;
  repeat (apply elem_of_cons in H as [H|H]; [discriminate H|]);
  now apply elem_of_nil in H.

Ltac unfold_calls :=
  unfold socket_recv, call_processMessage, removeConnection, findConnection,
    sendPlayerDisconnectedToOtherClients, sendWorldUpdateToAllClients, syncPlayers,
    log_debug, log_error, getattr, try_except, bind, emit, modify, gets, lift, ret.

Section ServerFacts.

Set Default Proof Using "Type".

Context {World : Type}.
Variable processMessage : Message -> ConnectionInfo -> World -> result unit * World.
Variable world_update : float -> World -> World.
Variable clock : nat -> float.

Abbreviation State := (ServerState World).

Lemma bind_Return {A B} (m : M State A) (k : A -> M State B) s a s' :
  m s = (Return a, s') -> bind m k s = k a s'.
Proof. intros H. unfold bind. now rewrite H. Qed.

Lemma socket_recv_run sk n (s : State) st :
  peers (os s) !! sk = Some st ->
  socket_recv sk n s =
    (fst (recv_from n (inbound st)),
     with_os (os_with_peers
                (<[sk := set_inbound (snd (recv_from n (inbound st))) st]> (peers (os s)))
                (os s))
       (with_trace (trace s ++ [EvRecv sk n]) s)).
Proof.
  intros H. unfold socket_recv, bind, emit, modify. cbn. rewrite H.
  now destruct (recv_from n (inbound st)).
Qed.

(** C1.  A frame whose length prefix decodes to [L >= 1] and whose [L]
    payload bytes are returned whole by the second [recv] is decoded
    into the message whose type is the first payload byte and whose
    body is the remaining [L - 1] bytes, and [processMessage] is called
    with that message and the connection the bytes came from. *)
Theorem doProtocol_dispatches_frame
    (s : State) (c : ConnectionInfo) (st : SocketState)
    (header payload : list byte) (script1 script2 : list arrival) (L : Z) :
  peers (os s) !! socket c = Some st ->
  recv_from 4 (inbound st) = (Return header, script1) ->
  length header = 4%nat ->
  unpack_HEADER_FORMAT header = Return L ->
  1 <= L ->
  recv_from L script1 = (Return payload, script2) ->
  Z.of_nat (length payload) = L ->
  exists (b : byte) (rest : list byte) (s' : State),
    payload = b :: rest /\
    Z.of_nat (length rest) = L - 1 /\
    let message := {| messageType := byte_val b; body := rest |} in
    let c' := set_data payload c in
    let handled := processMessage message c' (world s) in
    doProtocol processMessage (Some c) s = (Return tt, s') /\
    trace s' = trace s ++
      [EvDoProtocol (Some (socket c)); EvRecv (socket c) 4; EvRecv (socket c) L;
       EvProcessMessage message c'] ++ after_handler (socket c) (fst handled) /\
    world s' = snd handled /\
    socket c' = socket c /\ address c' = address c /\
    clientNumber c' = clientNumber c.
Proof.
  intros Hpeer Hrecv1 Hlen Hunpack HL Hrecv2 Hplen.
  destruct payload as [|b rest]; [simpl in Hplen; lia|].
  exists b, rest.
  unfold doProtocol, doProtocol_try, try_except.
  unfold bind at 1. cbn [emit modify].
  erewrite (bind_Return (getattr (Some c))) by reflexivity.
  erewrite bind_Return; cycle 1.
  { rewrite (socket_recv_run _ _ _ st) by exact Hpeer. rewrite Hrecv1. reflexivity. }
  rewrite Hlen. cbn [Nat.ltb Nat.leb].
  erewrite bind_Return by (unfold lift; rewrite Hunpack; reflexivity).
  erewrite bind_Return; cycle 1.
  { erewrite socket_recv_run by (cbn; apply lookup_insert_eq).
    cbn. rewrite Hrecv2. reflexivity. }
  cbn.
  unfold call_processMessage, bind, emit, modify, lift, log_error, removeConnection.
  cbn.
  destruct (processMessage _ _ (world s)) as [[[]|ex] w] eqn:Hhandler; cbn.
  - eexists. repeat split; cbn; [simpl in Hplen; lia|].
    rewrite <- !app_assoc. reflexivity.
  - eexists. repeat split; cbn; [simpl in Hplen; lia|].
    rewrite <- !app_assoc. reflexivity.
Qed.

(** *** The registry *)

Lemma cm_remove_lookup (c : ConnectionInfo) cm :
  connections (cm_removeConnection (Some c) cm) !! socket c = None.
Proof. unfold cm_removeConnection. cbn. apply lookup_delete_eq. Qed.

Lemma cm_remove_other (c : ConnectionInfo) cm sk :
  sk <> socket c ->
  connections (cm_removeConnection (Some c) cm) !! sk = connections cm !! sk.
Proof. intros H. unfold cm_removeConnection. cbn. now apply lookup_delete_ne. Qed.

Lemma cm_store_other c d cm sk :
  sk <> socket c -> connections (cm_store c d cm) !! sk = connections cm !! sk.
Proof.
  intros H. unfold cm_store.
  destruct (connections cm !! socket c) as [held|]; [|done].
  case_decide; [|done]. cbn. now apply lookup_insert_ne.
Qed.

Lemma cm_store_held (c : ConnectionInfo) (d : list byte) (cm : ConnectionManager) :
  connections cm !! socket c = Some c ->
  connections (cm_store c d cm) = <[socket c := set_data d c]> (connections cm) /\
  nextClientId (cm_store c d cm) = nextClientId cm.
Proof.
  intros H. unfold cm_store. rewrite H, decide_True by done. now cbn.
Qed.

Lemma cm_wf_remove connection cm : cm_wf cm -> cm_wf (cm_removeConnection connection cm).
Proof.
  destruct connection as [c|]; unfold cm_removeConnection; cbn; [|done].
  intros Hwf sk c' H. cbn in H. apply lookup_delete_Some in H as [_ H]. eauto.
Qed.

Lemma cm_wf_store c d cm : cm_wf cm -> cm_wf (cm_store c d cm).
Proof.
  intros Hwf. unfold cm_store.
  destruct (connections cm !! socket c) as [held|]; [|done].
  case_decide; [|done]. intros sk c' Hc'. cbn in Hc'.
  apply lookup_insert_Some in Hc' as [[Hk Hc]|[_ Hc']]; [now subst|eauto].
Qed.

Lemma cm_wf_add c cm : cm_wf cm -> cm_wf (cm_addConnection c cm).
Proof.
  intros Hwf sk c' H. unfold cm_addConnection in H. cbn in H.
  apply lookup_insert_Some in H as [[Hk Hc]|[_ H]]; [now subst|eauto].
Qed.

Lemma cm_wf_new ids : cm_wf (ConnectionManager_new ids).
Proof. intros sk c H. cbn in H. now rewrite lookup_empty in H. Qed.

(** *** What [recv] can do *)

Lemma consume_stall n bs rest : Stall ∈ consume n bs rest -> Stall ∈ rest.
Proof.
  unfold consume. destruct (drop n bs); [done|].
  intros H. apply elem_of_cons in H as [H|H]; [discriminate|done].
Qed.

(** A [recv] blocks only on a silent peer, and leaves no silence that
    was not there. *)
Lemma recv_from_stall (n : Z) (script : list arrival) :
  (Stall ∉ script -> fst (recv_from n script) <> Blocks) /\
  (Stall ∈ snd (recv_from n script) -> Stall ∈ script).
Proof.
  unfold recv_from. destruct (n <? 0); [done|]. destruct (n =? 0); [done|].
  destruct script as [|[bs| |] rest]; cbn; split; try done.
  - intros H. apply consume_stall in H. now apply list_elem_of_further.
  - intros H. now apply list_elem_of_further.
  - intros H _. apply H. now left.
Qed.

(** *** What [__doProtocol] can do *)

Lemma doProtocol_Some (c : ConnectionInfo) (s : State) :
  exists (out : outcome unit) (s' : State) (evs : list Event),
    doProtocol processMessage (Some c) s = (out, s') /\
    (out = Return tt \/ out = Blocks) /\
    trace s' = trace s ++ EvDoProtocol (Some (socket c)) :: evs /\
    Forall (about (socket c)) evs /\
    (forall sk, sk <> socket c ->
                connections (connectionManager s') !! sk =
                connections (connectionManager s) !! sk) /\
    (cm_wf (connectionManager s) -> cm_wf (connectionManager s')) /\
    networkState s' = networkState s /\
    (forall sk, sk <> socket c -> peers (os s') !! sk = peers (os s) !! sk).
Proof.
  unfold doProtocol, doProtocol_try. unfold_calls. cbn.
  run_paths.
  all: eexists _, _, _; split; [reflexivity|]; cbn.
  all: split; [auto|].
  all: split; [rewrite <- ?app_assoc; reflexivity|].
  all: split; [repeat constructor|].
  all: split;
    [intros sk Hsk; rewrite ?cm_remove_other, ?cm_store_other by done; reflexivity|].
  all: split; [auto using cm_wf_remove, cm_wf_store|].
  all: split; [reflexivity|].
  all: intros sk Hsk; rewrite ?lookup_insert_ne by congruence; reflexivity.
Qed.

Lemma doProtocol_None (s : State) :
  doProtocol processMessage None s =
    (Return tt,
     with_trace (trace s ++ [EvDoProtocol None; EvLogError AttributeError;
                             EvRemoveConnection None]) s).
Proof.
  unfold doProtocol, doProtocol_try. unfold_calls. cbn.
  rewrite <- !app_assoc. now destruct s.
Qed.

(** What is known of a [recv] whose outcome is among the hypotheses. *)
Ltac recv_facts :=
  repeat match goal with
         | H : recv_from ?n ?script = (?r, ?l) |- _ =>
             let H1 := fresh "Hnoblock" in
             let H2 := fresh "Hnostall" in
             pose proof (proj1 (recv_from_stall n script)) as H1;
             pose proof (proj2 (recv_from_stall n script)) as H2;
             rewrite H in H1, H2; cbn [fst snd] in H1, H2;
             revert H
         end;
  intros.

(** On the peer of its connection a call leaves no silence that was
    not there, and it returns when there is none. *)
Lemma doProtocol_stall (c : ConnectionInfo) (s : State) :
  let out := fst (doProtocol processMessage (Some c) s) in
  let s' := snd (doProtocol processMessage (Some c) s) in
  (forall st', peers (os s') !! socket c = Some st' -> Stall ∈ inbound st' ->
               exists st, peers (os s) !! socket c = Some st /\ Stall ∈ inbound st) /\
  ((forall st, peers (os s) !! socket c = Some st -> Stall ∉ inbound st) ->
   out = Return tt).
Proof.
  unfold doProtocol, doProtocol_try. unfold_calls. cbn.
  run_paths.
  all: recv_facts.
  all: split;
    [intros st' Hst' Hin; rewrite ?lookup_insert_eq in Hst'; simplify_eq/=; eauto
    |intros Hfree; try reflexivity; exfalso;
     specialize (Hfree _ eq_refl); tauto].
Qed.

Lemma not_registered_removed (c : ConnectionInfo) (cm : ConnectionManager) (s' : State) :
  connectionManager s' = cm_removeConnection (Some c) cm ->
  ~ registered (socket c) s'.
Proof.
  intros H. unfold registered. rewrite H, cm_remove_lookup. apply is_Some_None.
Qed.

(** A call whose second [recv] returns at least one byte, spelled
    out. *)
Lemma doProtocol_payload_run
    (s : State) (c : ConnectionInfo) (st : SocketState)
    (header : list byte) (b : byte) (rest : list byte)
    (script1 script2 : list arrival) (L : Z) :
  peers (os s) !! socket c = Some st ->
  recv_from 4 (inbound st) = (Return header, script1) ->
  length header = 4%nat ->
  unpack_HEADER_FORMAT header = Return L ->
  recv_from L script1 = (Return (b :: rest), script2) ->
  let message := {| messageType := byte_val b; body := rest |} in
  let c' := set_data (b :: rest) c in
  let handled := processMessage message c' (world s) in
  exists s' : State,
    doProtocol processMessage (Some c) s = (Return tt, s') /\
    trace s' = trace s ++
      [EvDoProtocol (Some (socket c)); EvRecv (socket c) 4; EvRecv (socket c) L;
       EvProcessMessage message c'] ++ after_handler (socket c) (fst handled) /\
    world s' = snd handled /\
    peers (os s') = <[socket c := set_inbound script2 st]> (peers (os s)) /\
    connectionManager s' =
      match fst handled with
      | Return _ => cm_store c (b :: rest) (connectionManager s)
      | Raise _ => cm_removeConnection (Some c)
                     (cm_store c (b :: rest) (connectionManager s))
      end /\
    networkState s' = networkState s /\
    select_outcomes (os s') = select_outcomes (os s).
Proof.
  intros Hpeer Hrecv1 Hlen Hunpack Hrecv2 message c' handled.
  subst message c' handled.
  assert (Hlt : (length header <=? 3)%nat = false) by (apply Nat.leb_gt; lia).
  unfold doProtocol, doProtocol_try. unfold_calls.
  change {| messageType := byte_val b; body := rest |}
    with (appendRaw (str_from1 (b :: rest)) (Message_new (byte_val b))).
  run_known.
  all: eexists; (split; [reflexivity|]); cbn.
  all: rewrite <- !app_assoc, insert_insert_eq; now repeat split.
Qed.

(** C2 (amended).  A connection whose first [recv] returns fewer than
    four bytes is removed from the registry once, one disconnect
    notice is sent, and nothing is dispatched.  After a whole header
    with [L >= 1], what happens depends on the second [recv].  When it
    returns the empty string, the peer having closed, or raises, the
    connection having failed, the exception handler logs the exception
    ([IndexError] in the first case) and removes the connection once,
    with no disconnect notice and no dispatch.  When the peer stays
    silent the call blocks in that [recv]: nothing is removed,
    announced or dispatched, and the connection stays registered.
    When it returns some but not all of the [L] bytes, these are
    dispatched as a message and no disconnect notice is sent. *)
Theorem doProtocol_short_read (s : State) (c : ConnectionInfo) (st : SocketState) :
  peers (os s) !! socket c = Some st ->
  let sk := socket c in
  let out := fst (doProtocol processMessage (Some c) s) in
  let s' := snd (doProtocol processMessage (Some c) s) in
  (forall header script1,
      recv_from 4 (inbound st) = (Return header, script1) ->
      (length header < 4)%nat ->
      let evs := [EvDoProtocol (Some sk); EvRecv sk 4;
                  EvLogDebug "Got invalid header...disconnecting client ";
                  EvRemoveConnection (Some sk); EvDisconnected sk] in
      out = Return tt /\
      trace s' = trace s ++ evs /\
      count (is_removal_of sk) evs = 1%nat /\
      count is_notice evs = 1%nat /\
      count is_dispatch evs = 0%nat /\
      ~ registered sk s') /\
  (forall header script1 L script2,
      recv_from 4 (inbound st) = (Return header, script1) ->
      length header = 4%nat ->
      unpack_HEADER_FORMAT header = Return L ->
      1 <= L ->
      recv_from L script1 = (Return [], script2) ->
      let evs := [EvDoProtocol (Some sk); EvRecv sk 4; EvRecv sk L;
                  EvLogError IndexError; EvRemoveConnection (Some sk)] in
      out = Return tt /\
      trace s' = trace s ++ evs /\
      count (is_removal_of sk) evs = 1%nat /\
      count is_notice evs = 0%nat /\
      count is_dispatch evs = 0%nat /\
      ~ registered sk s') /\
  (forall header script1 L script2 ex,
      recv_from 4 (inbound st) = (Return header, script1) ->
      length header = 4%nat ->
      unpack_HEADER_FORMAT header = Return L ->
      1 <= L ->
      recv_from L script1 = (Raise ex, script2) ->
      let evs := [EvDoProtocol (Some sk); EvRecv sk 4; EvRecv sk L;
                  EvLogError ex; EvRemoveConnection (Some sk)] in
      out = Return tt /\
      trace s' = trace s ++ evs /\
      count (is_removal_of sk) evs = 1%nat /\
      count is_notice evs = 0%nat /\
      count is_dispatch evs = 0%nat /\
      ~ registered sk s') /\
  (forall header script1 L script2,
      recv_from 4 (inbound st) = (Return header, script1) ->
      length header = 4%nat ->
      unpack_HEADER_FORMAT header = Return L ->
      1 <= L ->
      recv_from L script1 = (Blocks, script2) ->
      let evs := [EvDoProtocol (Some sk); EvRecv sk 4; EvRecv sk L] in
      out = Blocks /\
      trace s' = trace s ++ evs /\
      count (is_removal_of sk) evs = 0%nat /\
      count is_notice evs = 0%nat /\
      count is_dispatch evs = 0%nat /\
      connectionManager s' = connectionManager s) /\
  (forall header script1 L payload script2,
      recv_from 4 (inbound st) = (Return header, script1) ->
      length header = 4%nat ->
      unpack_HEADER_FORMAT header = Return L ->
      recv_from L script1 = (Return payload, script2) ->
      (1 <= length payload)%nat ->
      Z.of_nat (length payload) < L ->
      let c' := set_data payload c in
      let handled := processMessage (message_of payload) c' (world s) in
      let evs := [EvDoProtocol (Some sk); EvRecv sk 4; EvRecv sk L;
                  EvProcessMessage (message_of payload) c']
                 ++ after_handler sk (fst handled) in
      out = Return tt /\
      trace s' = trace s ++ evs /\
      count is_notice evs = 0%nat /\
      count is_dispatch evs = 1%nat).
Proof.
  intros Hpeer sk out s'. subst out s'.
  split; [|split; [|split; [|split]]].
  - intros header script1 Hrecv Hlen evs.
    assert (Hlt : (length header <=? 3)%nat = true) by (apply Nat.leb_le; lia).
    unfold doProtocol, doProtocol_try. unfold_calls.
    run_known.
    repeat split; [now rewrite <- !app_assoc|].
    now eapply not_registered_removed.
  - intros header script1 L script2 Hrecv Hlen Hunpack HL Hrecv2 evs.
    assert (Hlt : (length header <=? 3)%nat = false) by (apply Nat.leb_gt; lia).
    unfold doProtocol, doProtocol_try. unfold_calls.
    run_known.
    repeat split; [now rewrite <- !app_assoc|].
    now eapply not_registered_removed.
  - intros header script1 L script2 ex Hrecv Hlen Hunpack HL Hrecv2 evs.
    assert (Hlt : (length header <=? 3)%nat = false) by (apply Nat.leb_gt; lia).
    unfold doProtocol, doProtocol_try. unfold_calls.
    run_known.
    repeat split; [now rewrite <- !app_assoc|].
    now eapply not_registered_removed.
  - intros header script1 L script2 Hrecv Hlen Hunpack HL Hrecv2 evs.
    assert (Hlt : (length header <=? 3)%nat = false) by (apply Nat.leb_gt; lia).
    unfold doProtocol, doProtocol_try. unfold_calls.
    run_known.
    repeat split. now rewrite <- !app_assoc.
  - intros header script1 L payload script2 Hrecv Hlen Hunpack Hrecv2 Hk HL c' handled evs.
    destruct payload as [|b rest]; [cbn in Hk; lia|].
    destruct (doProtocol_payload_run s c st header b rest script1 script2 L
                Hpeer Hrecv Hlen Hunpack Hrecv2)
      as (s1 & Hrun & Htrace & _).
    rewrite Hrun. cbn [fst snd]. split; [reflexivity|]. split; [exact Htrace|].
    subst evs handled c'. cbn [message_of].
    destruct (fst (processMessage _ _ (world s))) as [[]|ex]; now cbn.
Qed.

(** C9.  A frame whose length prefix decodes to [L <= 0] is never
    dispatched: the second [recv] raises for [L < 0], and for [L = 0]
    either it raises or it returns the empty string, whose first byte
    cannot be read.  The exception handler logs the error and removes
    the connection, and no disconnect notice is sent. *)
Theorem doProtocol_nonpositive_length
    (s : State) (c : ConnectionInfo) (st : SocketState)
    (header : list byte) (script1 : list arrival) (L : Z) :
  peers (os s) !! socket c = Some st ->
  recv_from 4 (inbound st) = (Return header, script1) ->
  length header = 4%nat ->
  unpack_HEADER_FORMAT header = Return L ->
  L <= 0 ->
  let sk := socket c in
  let s' := snd (doProtocol processMessage (Some c) s) in
  exists ex : exn,
    let evs := [EvDoProtocol (Some sk); EvRecv sk 4; EvRecv sk L;
                EvLogError ex; EvRemoveConnection (Some sk)] in
    fst (doProtocol processMessage (Some c) s) = Return tt /\
    trace s' = trace s ++ evs /\
    (L < 0 -> ex = ValueError) /\
    (L = 0 -> ex = IndexError \/ ex = SocketError) /\
    count is_dispatch evs = 0%nat /\
    count is_notice evs = 0%nat /\
    count (is_removal_of sk) evs = 1%nat /\
    ~ registered sk s'.
Proof.
  intros Hpeer Hrecv Hlen Hunpack HL sk s'. subst s'.
  assert (Hlt : (length header <=? 3)%nat = false) by (apply Nat.leb_gt; lia).
  assert (Hsecond : recv_from L script1 = (Raise ValueError, script1) /\ L < 0 \/
                    recv_from L script1 = (Return [], script1) /\ L = 0).
  { unfold recv_from. destruct (Z.ltb_spec L 0) as [Hneg|Hnn]; [now left|].
    assert (L = 0) as -> by lia. now right. }
  destruct Hsecond as [[Hrecv2 Hneg]|[Hrecv2 ->]].
  - exists ValueError.
    unfold doProtocol, doProtocol_try. unfold_calls.
    run_known.
    repeat split; [now rewrite <- !app_assoc|lia|].
    now eapply not_registered_removed.
  - exists IndexError.
    unfold doProtocol, doProtocol_try. unfold_calls.
    run_known.
    repeat split; [now rewrite <- !app_assoc|lia|auto|].
    now eapply not_registered_removed.
Qed.

(** *** The loops of [__readThread] *)

Lemma protocol_calls_app evs1 evs2 :
  protocol_calls (evs1 ++ evs2) = protocol_calls evs1 ++ protocol_calls evs2.
Proof. apply omap_app. Qed.

Lemma about_no_calls sk evs : Forall (about sk) evs -> protocol_calls evs = [].
Proof.
  induction 1 as [|e evs He _ IH]; [done|].
  unfold protocol_calls in *. cbn. rewrite IH. now destruct e.
Qed.

Lemma about_no_mention sk sk' evs :
  sk' <> sk -> Forall (about sk) evs -> Forall (fun e => ~ mentions sk' e) evs.
Proof.
  intros Hne H. eapply Forall_impl; [exact H|]. intros e He Hm.
  destruct e as [| | | | | | | | | | |[]| | | | | | | | |]; cbn in *; congruence.
Qed.


(** How a [for] loop goes on after a step, and how it ends with a step
    that does not return. *)
Lemma for_each_cons {A} (f : A -> M State unit) x l s s1 :
  f x s = (Return tt, s1) -> for_each l f s1 = for_each (x :: l) f s.
Proof. intros H. cbn. unfold bind. now rewrite H. Qed.

Lemma for_each_stops {A} (f : A -> M State unit) x l s s1 :
  f x s = (Blocks, s1) -> for_each (x :: l) f s = (Blocks, s1).
Proof. intros H. cbn. unfold bind. now rewrite H. Qed.

(** What every step keeps, the loop keeps, however it ends. *)
Lemma for_each_rel {A} (R : State -> State -> Prop) (f : A -> M State unit) (l : list A) :
  (forall s, R s s) ->
  (forall s1 s2 s3, R s1 s2 -> R s2 s3 -> R s1 s3) ->
  (forall x s, x ∈ l -> R s (snd (f x s))) ->
  forall s, R s (snd (for_each l f s)).
Proof.
  intros Hrefl Htrans. induction l as [|x l IH]; intros Hf s; [apply Hrefl|].
  pose proof (Hf x s ltac:(now left)) as Hx.
  cbn. unfold bind. destruct (f x s) as [[[[]|ex]|] s1]; cbn in *; try exact Hx.
  eapply Htrans; [exact Hx|]. apply IH. intros y s2 Hy. apply Hf. now right.
Qed.

Lemma for_each_no_raise {A} (f : A -> M State unit) (l : list A) :
  (forall x s ex, fst (f x s) <> Raise ex) ->
  forall s ex, fst (for_each l f s) <> Raise ex.
Proof.
  intros Hf. induction l as [|x l IH]; intros s ex; [done|].
  pose proof (Hf x s) as Hx.
  cbn. unfold bind. destruct (f x s) as [[[[]|ex']|] s1]; cbn in *; [apply IH| |done].
  now destruct (Hx ex').
Qed.

Lemma for_each_returns {A} (P : State -> Prop) (f : A -> M State unit) (l : list A) :
  (forall x s, x ∈ l -> P s -> fst (f x s) = Return tt /\ P (snd (f x s))) ->
  forall s, P s -> exists s', for_each l f s = (Return tt, s') /\ P s'.
Proof.
  induction l as [|x l IH]; intros Hf s Hs; [now exists s|].
  destruct (Hf x s ltac:(now left) Hs) as [Hout Hs1].
  destruct (f x s) as [out s1] eqn:Hrun. cbn in Hout, Hs1. subst out.
  destruct (IH ltac:(intros y s2 Hy; apply Hf; now right) s1 Hs1) as (s' & Hrest & Hs').
  exists s'. split; [|exact Hs']. rewrite <- Hrest. symmetry. now apply for_each_cons.
Qed.

(** *** What the read side leaves alone *)

Lemma serves_only_refl (s : State) : serves_only s s.
Proof.
  repeat split; try done. exists []. now rewrite app_nil_r.
Qed.

Lemma serves_only_trans (s1 s2 s3 : State) :
  serves_only s1 s2 -> serves_only s2 s3 -> serves_only s1 s3.
Proof.
  intros (N1 & R1 & U1 & F1 & B1 & C1 & S1 & I1 & K1 & evs1 & T1 & L1 & A1)
         (N2 & R2 & U2 & F2 & B2 & C2 & S2 & I2 & K2 & evs2 & T2 & L2 & A2).
  repeat split; try congruence; [by etrans|auto|].
  exists (evs1 ++ evs2). rewrite T2, T1, app_assoc. split; [done|].
  unfold lifecycle, added_connections in *. now rewrite !omap_app, L1, L2, A1, A2.
Qed.

Lemma cm_store_nextClientId c d cm :
  nextClientId (cm_store c d cm) = nextClientId cm.
Proof.
  unfold cm_store. destruct (connections cm !! socket c); [|done]. now case_decide.
Qed.

Lemma cm_store_None c d cm sk :
  connections cm !! sk = None -> connections (cm_store c d cm) !! sk = None.
Proof.
  intros H. destruct (decide (sk = socket c)) as [->|Hne].
  - unfold cm_store. now rewrite H.
  - now rewrite cm_store_other.
Qed.

Lemma cm_remove_shrinks connection cm sk :
  connections cm !! sk = None ->
  connections (cm_removeConnection connection cm) !! sk = None.
Proof.
  destruct connection as [c|]; unfold cm_removeConnection; cbn; [|done].
  intros H. apply lookup_delete_None. now right.
Qed.

Lemma cm_remove_nextClientId connection cm :
  nextClientId (cm_removeConnection connection cm) = nextClientId cm.
Proof. now destruct connection. Qed.

(** One call of [__doProtocol], whatever its argument and however it
    ends. *)
Lemma doProtocol_serves_only (connection : option ConnectionInfo) (s : State) :
  let s' := snd (doProtocol processMessage connection s) in
  serves_only s s' /\
  (forall sk, Some sk <> socket <$> connection ->
              peers (os s') !! sk = peers (os s) !! sk).
Proof.
  unfold doProtocol, doProtocol_try. unfold_calls. cbn.
  run_paths.
  all: split;
    [repeat split; cbn;
     rewrite ?cm_remove_nextClientId, ?cm_store_nextClientId; try reflexivity;
     [intros sk Hsk; auto using cm_remove_shrinks, cm_store_None
     |eexists; rewrite <- ?app_assoc; split; [reflexivity|now split]]
    |intros sk Hsk; rewrite ?lookup_insert_ne by congruence; reflexivity].
Qed.

Lemma remove_found_run (serr : Socket) (s : State) :
  let found := cm_findConnection serr (connectionManager s) in
  (c <- findConnection serr;; removeConnection c) s =
    (Return tt,
     with_connectionManager (cm_removeConnection found (connectionManager s))
       (with_trace (trace s ++ [EvRemoveConnection (socket <$> found)]) s)).
Proof. reflexivity. Qed.

Lemma remove_found_serves_only (serr : Socket) (s : State) :
  serves_only s (snd ((c <- findConnection serr;; removeConnection c) s)).
Proof.
  rewrite remove_found_run. cbn.
  repeat split; cbn; rewrite ?cm_remove_nextClientId; try reflexivity.
  - intros sk Hsk. now apply cm_remove_shrinks.
  - eexists. split; [reflexivity|]. now destruct (cm_findConnection _ _).
Qed.

Lemma serve_found_serves_only (sk : Socket) (s : State) :
  serves_only s (snd ((c <- findConnection sk;; doProtocol processMessage c) s)).
Proof.
  unfold findConnection, bind, gets.
  apply (doProtocol_serves_only (cm_findConnection sk (connectionManager s)) s).
Qed.

Lemma after_select_serves_only (socketList : list Socket) (s : State) :
  serves_only s (after_select socketList s).
Proof.
  repeat split; cbn; try done.
  - destruct (select_outcomes (os s)) as [|o rest]; [done|]. now apply suffix_cons_r.
  - now exists [EvSelect socketList].
Qed.

(** A pass of the read loop, spelled out by the outcome of [select]. *)
Lemma readThread_body_run (s : State) :
  let socketList := cm_getListOfSocketsForSelect (connectionManager s) in
  let reads := filter (fun sk => reports readable (os s) sk) socketList in
  let errs := filter (fun sk => reports exceptional (os s) sk) socketList in
  readThread_body processMessage s =
    match select_failure (os s) with
    | Some ex => (Raise ex, after_select socketList s)
    | None =>
        (readThread_errors errs;; readThread_reads processMessage reads)
          (after_select socketList s)
    end.
Proof.
  intros socketList reads errs.
  unfold readThread_body, select_select. unfold bind at 1. unfold gets.
  fold socketList. unfold bind at 1.
  now destruct (select_failure (os s)).
Qed.

Lemma readThread_errors_total (errs : list Socket) (s : State) :
  exists (s' : State) (evs : list Event),
    readThread_errors errs s = (Return tt, s') /\
    trace s' = trace s ++ evs /\
    protocol_calls evs = [] /\
    os s' = os s.
Proof.
  unfold readThread_errors. revert s.
  induction errs as [|sk errs IH]; intros s.
  - exists s, []. now rewrite app_nil_r.
  - set (found := cm_findConnection sk (connectionManager s)).
    destruct (IH (with_connectionManager
                    (cm_removeConnection found (connectionManager s))
                    (with_trace (trace s ++ [EvRemoveConnection (socket <$> found)]) s)))
      as (s' & evs & Hrun & Htrace & Hcalls & Hos).
    exists s', (EvRemoveConnection (socket <$> found) :: evs).
    split; [|split; [|split]].
    + rewrite <- Hrun. symmetry. apply for_each_cons. reflexivity.
    + rewrite Htrace. cbn. now rewrite <- app_assoc.
    + exact Hcalls.
    + exact Hos.
Qed.

Lemma readThread_body_serves_only (s : State) :
  serves_only s (snd (readThread_body processMessage s)).
Proof.
  rewrite readThread_body_run. cbv zeta.
  set (socketList := cm_getListOfSocketsForSelect (connectionManager s)).
  pose proof (after_select_serves_only socketList s) as H0.
  destruct (select_failure (os s)); [exact H0|].
  eapply serves_only_trans; [exact H0|].
  destruct (readThread_errors_total
              (filter (fun sk => reports exceptional (os s) sk) socketList)
              (after_select socketList s)) as (s1 & evs1 & Hrun1 & _).
  assert (Hs1 : serves_only (after_select socketList s) s1).
  { replace s1 with (snd (readThread_errors
                            (filter (fun sk => reports exceptional (os s) sk) socketList)
                            (after_select socketList s))) by now rewrite Hrun1.
    unfold readThread_errors. apply (for_each_rel serves_only);
      [apply serves_only_refl|apply serves_only_trans
      |intros; apply remove_found_serves_only]. }
  unfold bind. rewrite Hrun1.
  eapply serves_only_trans; [exact Hs1|].
  unfold readThread_reads. apply (for_each_rel serves_only);
    [apply serves_only_refl|apply serves_only_trans
    |intros; apply serve_found_serves_only].
Qed.

Lemma readThread_serves_only (fuel : nat) (s : State) :
  serves_only s (snd (readThread processMessage fuel s)).
Proof.
  revert s. induction fuel as [|fuel IH]; intros s; cbn; unfold bind, gets;
    (case_decide; [|apply serves_only_refl]).
  - apply serves_only_refl.
  - pose proof (readThread_body_serves_only s) as Hs1.
    destruct (readThread_body processMessage s) as [[[[]|ex]|] s1]; cbn in *;
      [|exact Hs1..].
    eapply serves_only_trans; [exact Hs1|apply IH].
Qed.

(** *** When the read side returns *)

Lemma selects_well_next (o : OS) : selects_well o -> select_failure o = None.
Proof.
  unfold selects_well, select_failure.
  destruct (select_outcomes o) as [|[ex|] rest]; [done| |done].
  intros H. apply Forall_cons in H as [H _]. discriminate.
Qed.

Lemma selects_well_serves_only (s s' : State) :
  serves_only s s' -> selects_well (os s) -> selects_well (os s').
Proof.
  intros (_ & _ & _ & _ & _ & _ & [k Hk] & _) H. unfold selects_well in *.
  rewrite Hk in H. now apply Forall_app in H as [_ H].
Qed.

(** A call neither adds a silent peer nor blocks without one. *)
Lemma doProtocol_stall_free (skip : option Socket)
    (connection : option ConnectionInfo) (s : State) :
  stall_free_but skip s ->
  stall_free_but skip (snd (doProtocol processMessage connection s)) /\
  (socket <$> connection <> skip \/ connection = None ->
   fst (doProtocol processMessage connection s) = Return tt).
Proof.
  intros Hfree. destruct connection as [c|]; [|now rewrite doProtocol_None].
  destruct (doProtocol_Some c s) as (out & s' & evs & Hrun & _ & _ & _ & _ & _ & _ & Hpeers).
  destruct (doProtocol_stall c s) as [Hkeep Hret]. rewrite Hrun in *. cbn [fst snd] in *.
  split.
  - intros sk st' Hsk Hst' Hin. destruct (decide (sk = socket c)) as [->|Hne].
    + destruct (Hkeep st' Hst' Hin) as (st & Hst & Hin'). now apply (Hfree _ _ Hsk Hst).
    + rewrite Hpeers in Hst' by done. now apply (Hfree _ _ Hsk Hst').
  - intros [Hne|Hnone]; [|discriminate]. apply Hret. intros st Hst.
    apply (Hfree _ _ Hne Hst).
Qed.

Lemma readThread_reads_returns (reads : list Socket) (s : State) :
  stall_free s ->
  exists s' : State,
    readThread_reads processMessage reads s = (Return tt, s') /\ stall_free s'.
Proof.
  intros Hs. unfold readThread_reads. apply for_each_returns; [|exact Hs].
  intros sk s1 _ Hs1. unfold findConnection, bind, gets.
  destruct (doProtocol_stall_free None (cm_findConnection sk (connectionManager s1)) s1 Hs1)
    as [Hfree Hret].
  split; [|exact Hfree]. apply Hret.
  destruct (cm_findConnection sk (connectionManager s1)); [now left|now right].
Qed.

Lemma readThread_body_returns (s : State) :
  select_failure (os s) = None ->
  stall_free s ->
  exists s' : State,
    readThread_body processMessage s = (Return tt, s') /\ stall_free s'.
Proof.
  intros Hsel Hs. rewrite readThread_body_run, Hsel. cbv zeta.
  set (socketList := cm_getListOfSocketsForSelect (connectionManager s)).
  destruct (readThread_errors_total
              (filter (fun sk => reports exceptional (os s) sk) socketList)
              (after_select socketList s)) as (s1 & evs1 & Hrun1 & _ & _ & Hos).
  unfold bind. rewrite Hrun1. apply readThread_reads_returns.
  intros sk st Hsk Hst. rewrite Hos in Hst. exact (Hs sk st Hsk Hst).
Qed.

Lemma readThread_returns (fuel : nat) (s : State) :
  networkState s = Running ->
  selects_well (os s) ->
  stall_free s ->
  exists s' : State,
    readThread processMessage fuel s = (Return StillLooping, s') /\ stall_free s'.
Proof.
  revert s. induction fuel as [|fuel IH]; intros s Hnet Hsel Hs;
    cbn; unfold bind, gets; rewrite decide_True by done; [now exists s|].
  pose proof (readThread_body_serves_only s) as Hserves.
  destruct (readThread_body_returns s (selects_well_next _ Hsel) Hs) as (s1 & Hrun & Hs1).
  rewrite Hrun in *. cbn [snd] in Hserves. apply IH; [|eauto using selects_well_serves_only|done].
  destruct Hserves as (Hn & _). congruence.
Qed.

(** *** What a pass hands to the protocol step *)




(** The error loop on sockets that are all registered. *)
Lemma readThread_errors_spec (errs : list Socket) (s : State) :
  NoDup errs ->
  cm_wf (connectionManager s) ->
  (forall sk, sk ∈ errs -> registered sk s) ->
  exists s' : State,
    readThread_errors errs s = (Return tt, s') /\
    trace s' = trace s ++ map (fun sk => EvRemoveConnection (Some sk)) errs /\
    (forall sk, connections (connectionManager s') !! sk =
                if decide (sk ∈ errs) then None
                else connections (connectionManager s) !! sk) /\
    cm_wf (connectionManager s') /\
    os s' = os s.
Proof.
  clear processMessage world_update clock.
  unfold readThread_errors. revert s.
  induction errs as [|sk errs IH]; intros s Hnd Hwf Hreg.
  - exists s. cbn. rewrite app_nil_r.
    split; [done|]. split; [done|]. split; [|done].
    intros sk. case_decide; [set_solver|done].
  - apply NoDup_cons in Hnd as [Hsk Hnd].
    destruct (Hreg sk) as [c Hc]; [set_solver|].
    pose proof (Hwf _ _ Hc) as Hsock.
    set (s1 := with_connectionManager
                 (cm_removeConnection (Some c) (connectionManager s))
                 (with_trace (trace s ++ [EvRemoveConnection (Some sk)]) s)).
    destruct (IH s1) as (s' & Hrun & Htrace & Hlook & Hwf' & Hos); [done|..].
    { now apply cm_wf_remove. }
    { intros r Hr. unfold registered, s1. cbn.
      rewrite cm_remove_other by (rewrite Hsock; set_solver).
      apply Hreg. set_solver. }
    exists s'. split; [|split; [|split; [|done]]].
    + rewrite <- Hrun. symmetry. apply for_each_cons.
      unfold findConnection, removeConnection, bind, gets, emit, modify,
        cm_findConnection. cbn. rewrite Hc. cbn. now rewrite Hsock.
    + rewrite Htrace. cbn. now rewrite <- app_assoc.
    + intros k. rewrite Hlook. unfold s1. cbn.
      destruct (decide (k = sk)) as [->|Hne].
      * pose proof (cm_remove_lookup c (connectionManager s)) as Hnone.
        rewrite Hsock in Hnone. rewrite Hnone.
        repeat case_decide; set_solver.
      * rewrite cm_remove_other by now rewrite Hsock.
        destruct (decide (k ∈ errs)) as [Hin|Hout],
                 (decide (k ∈ sk :: errs)) as [Hin'|Hout']; try done.
        -- exfalso. apply Hout'. now apply list_elem_of_further.
        -- apply elem_of_cons in Hin' as [?|?]; done.
Qed.

(** The read loop, with the sockets of [gone] not registered. *)
Lemma readThread_reads_spec (gone reads : list Socket) (s : State) :
  NoDup reads ->
  cm_wf (connectionManager s) ->
  (forall sk, sk ∈ gone -> connections (connectionManager s) !! sk = None) ->
  (forall sk, sk ∈ reads -> sk ∉ gone -> registered sk s) ->
  exists (out : outcome unit) (s' : State) (evs : list Event),
    readThread_reads processMessage reads s = (out, s') /\
    (out = Return tt \/ out = Blocks) /\
    trace s' = trace s ++ evs /\
    protocol_calls evs `prefix_of`
      map (fun sk => if decide (sk ∈ gone) then None else Some sk) reads /\
    (out = Return tt ->
     protocol_calls evs =
       map (fun sk => if decide (sk ∈ gone) then None else Some sk) reads) /\
    (forall sk, sk ∈ gone -> Forall (fun e => ~ mentions sk e) evs) /\
    cm_wf (connectionManager s').
Proof.
  clear world_update clock.
  unfold readThread_reads. revert s.
  induction reads as [|sk reads IH]; intros s Hnd Hwf Hgone Hreg.
  - exists (Done (Return tt)), s, []. rewrite app_nil_r. repeat split; auto.
  - apply NoDup_cons in Hnd as [Hsk Hnd].
    destruct (decide (sk ∈ gone)) as [Hin|Hout].
    + (* the socket has lost its connection: the step runs on None *)
      set (s1 := with_trace (trace s ++ [EvDoProtocol None; EvLogError AttributeError;
                                         EvRemoveConnection None]) s).
      destruct (IH s1) as (out & s' & evs & Hrun & Hout & Htrace & Hpre & Hcalls
                           & Hquiet & Hwf');
        [done..| |].
      { intros r Hr Hr'. apply (Hreg r); set_solver. }
      exists out, s', ([EvDoProtocol None; EvLogError AttributeError;
                        EvRemoveConnection None] ++ evs).
      split; [|split; [done|split; [|split; [|split; [|split; [|exact Hwf']]]]]].
      * rewrite <- Hrun. symmetry. apply for_each_cons.
        unfold findConnection, bind, gets, cm_findConnection.
        rewrite (Hgone _ Hin). apply doProtocol_None.
      * rewrite Htrace. unfold s1. cbn. now rewrite <- app_assoc.
      * rewrite protocol_calls_app. cbn. rewrite decide_True by done.
        now apply (prefix_app [None]).
      * intros Hret. rewrite protocol_calls_app, Hcalls by done. cbn.
        now rewrite decide_True.
      * intros k Hk. apply Forall_app. split; [|now apply Hquiet].
        repeat constructor; cbn; tauto.
    + destruct (Hreg sk) as [c Hc]; [set_solver|done|].
      pose proof (Hwf _ _ Hc) as Hsock.
      destruct (doProtocol_Some c s)
        as (out1 & s1 & evs1 & Hrun1 & Hout1 & Htrace1 & Habout & Hother & Hwf1 & _).
      rewrite Hsock in *.
      assert (Hstep : (c0 <- findConnection sk;; doProtocol processMessage c0) s
                      = (out1, s1)).
      { unfold findConnection, bind, gets, cm_findConnection. now rewrite Hc. }
      assert (Hquiet1 : forall k, k ∈ gone ->
                Forall (fun e => ~ mentions k e) (EvDoProtocol (Some sk) :: evs1)).
      { intros k Hk. constructor; [cbn; intros ->; done|].
        eapply about_no_mention; [|exact Habout]. now intros ->. }
      destruct Hout1 as [->| ->].
      * destruct (IH s1) as (out & s' & evs & Hrun & Hout' & Htrace & Hpre & Hcalls
                             & Hquiet & Hwf');
          [done|auto|..].
        { intros g Hg. rewrite Hother by (intros ->; done). now apply Hgone. }
        { intros r Hr Hr'. unfold registered. rewrite Hother by (intros ->; done).
          apply Hreg; set_solver. }
        exists out, s', ((EvDoProtocol (Some sk) :: evs1) ++ evs).
        split; [|split; [done|split; [|split; [|split; [|split; [|exact Hwf']]]]]].
        -- rewrite <- Hrun. symmetry. now apply for_each_cons.
        -- rewrite Htrace, Htrace1. cbn. now rewrite <- app_assoc.
        -- change (EvDoProtocol (Some sk) :: evs1) with ([EvDoProtocol (Some sk)] ++ evs1).
           rewrite !protocol_calls_app, (about_no_calls _ _ Habout). cbn.
           rewrite decide_False by done. now apply (prefix_app [Some sk]).
        -- intros Hret.
           change (EvDoProtocol (Some sk) :: evs1) with ([EvDoProtocol (Some sk)] ++ evs1).
           rewrite !protocol_calls_app, Hcalls, (about_no_calls _ _ Habout) by done. cbn.
           now rewrite decide_False.
        -- intros k Hk. apply Forall_app. split; [now apply Hquiet1|now apply Hquiet].
      * exists Blocks, s1, (EvDoProtocol (Some sk) :: evs1).
        split; [|split; [auto|split; [done|split; [|split; [|split]]]]].
        -- now apply for_each_stops.
        -- change (EvDoProtocol (Some sk) :: evs1) with ([EvDoProtocol (Some sk)] ++ evs1).
           rewrite protocol_calls_app, (about_no_calls _ _ Habout). cbn.
           rewrite decide_False by done. apply (prefix_app [Some sk]), prefix_nil.
        -- discriminate.
        -- exact Hquiet1.
        -- auto.
Qed.

Lemma socketList_registered (s : State) sk :
  sk ∈ cm_getListOfSocketsForSelect (connectionManager s) <-> registered sk s.
Proof.
  unfold cm_getListOfSocketsForSelect, registered. split.
  - intros H. apply list_elem_of_fmap in H as ([k c] & -> & H).
    apply elem_of_map_to_list in H. cbn. eauto.
  - intros [c H]. apply list_elem_of_fmap. exists (sk, c).
    split; [done|]. now apply elem_of_map_to_list.
Qed.

Lemma socketList_NoDup (s : State) :
  NoDup (cm_getListOfSocketsForSelect (connectionManager s)).
Proof. apply NoDup_fst_map_to_list. Qed.

Lemma calls_absent (gone reads : list Socket) (sk : Socket) :
  sk ∉ reads ->
  filter (eq (Some sk))
    (map (fun r => if decide (r ∈ gone) then None else Some r) reads) = [].
Proof.
  induction reads as [|r reads IH]; intros Hsk; [done|].
  apply not_elem_of_cons in Hsk as [Hne Hsk].
  rewrite map_cons, filter_cons, IH by done.
  case_decide as Heq; [|done]. case_decide; congruence.
Qed.

Lemma calls_at_most_once (gone reads : list Socket) (sk : Socket) :
  NoDup reads ->
  (length (filter (eq (Some sk))
             (map (fun r => if decide (r ∈ gone) then None else Some r) reads)) <= 1)%nat.
Proof.
  induction 1 as [|r reads Hr Hnd IH]; [cbn; lia|].
  rewrite map_cons, filter_cons. case_decide as Heq; [|exact IH].
  case_decide; [done|]. simplify_eq.
  rewrite calls_absent by done. cbn. lia.
Qed.

Lemma prefix_filter_length {A} (P : A -> Prop) `{forall x, Decision (P x)} (l1 l2 : list A) :
  l1 `prefix_of` l2 -> (length (filter P l1) <= length (filter P l2))%nat.
Proof. intros [k ->]. rewrite filter_app, length_app. lia. Qed.

(** C4.  One pass of the read loop, from a registry that files every
    connection under its socket.  When [select] raises, the pass ends
    with that exception before anything is removed or handed over.
    Otherwise the error loop comes first and does nothing but remove
    the connection of each socket reported with an error condition;
    when the first read-ready socket reaches the protocol step, none
    of those sockets is registered any more, and nothing in the rest
    of the pass names one of them.  The read loop hands the read-ready
    sockets to the protocol step in the order of the list, each at
    most once, so no connection is processed twice: all of them when
    the pass returns, which it does when no peer stays silent, and the
    first ones up to the call that is stuck in a [recv] otherwise.
    The registry still files every connection under its socket
    after the pass. *)
Theorem readThread_body_order (s : State) :
  cm_wf (connectionManager s) ->
  let socketList := cm_getListOfSocketsForSelect (connectionManager s) in
  let reads := filter (fun sk => reports readable (os s) sk) socketList in
  let errs := filter (fun sk => reports exceptional (os s) sk) socketList in
  let calls := map (fun sk => if decide (sk ∈ errs) then None else Some sk) reads in
  (forall ex, select_failure (os s) = Some ex ->
     readThread_body processMessage s = (Raise ex, after_select socketList s)) /\
  (select_failure (os s) = None ->
   exists (out : outcome unit) (s_err s' : State) (evs : list Event),
    readThread_body processMessage s = (out, s') /\
    (out = Return tt \/ out = Blocks) /\
    (stall_free s -> out = Return tt) /\
    readThread_errors errs (after_select socketList s) = (Return tt, s_err) /\
    trace s_err =
      trace s ++ EvSelect socketList :: map (fun sk => EvRemoveConnection (Some sk)) errs /\
    (forall sk, sk ∈ errs -> ~ registered sk s_err) /\
    readThread_reads processMessage reads s_err = (out, s') /\
    trace s' = trace s_err ++ evs /\
    protocol_calls evs `prefix_of` calls /\
    (out = Return tt -> protocol_calls evs = calls) /\
    NoDup reads /\
    (forall sk, (length (filter (eq (Some sk)) (protocol_calls evs)) <= 1)%nat) /\
    (forall sk, sk ∈ errs -> Forall (fun e => ~ mentions sk e) evs) /\
    cm_wf (connectionManager s')).
Proof.
  intros Hwf socketList reads errs calls.
  pose proof (readThread_body_run s) as Hbody. cbv zeta in Hbody.
  fold socketList in Hbody. fold reads in Hbody. fold errs in Hbody.
  split; [intros ex Hsel; now rewrite Hbody, Hsel|].
  intros Hsel. rewrite Hsel in Hbody.
  pose proof (socketList_NoDup s) as Hnd. fold socketList in Hnd.
  assert (Hnd_reads : NoDup reads) by now apply NoDup_filter.
  assert (Hnd_errs : NoDup errs) by now apply NoDup_filter.
  set (s0 := after_select socketList s) in *.
  destruct (readThread_errors_spec errs s0)
    as (s_err & Hrun1 & Htrace1 & Hlook & Hwf1 & Hos); [done|done| |].
  { intros sk Hsk. apply list_elem_of_filter in Hsk as [_ Hsk].
    now apply socketList_registered in Hsk. }
  destruct (readThread_reads_spec errs reads s_err)
    as (out & s' & evs & Hrun & Hout & Htrace & Hpre & Hcalls & Hquiet & Hwf');
    [done|done|..].
  { intros sk Hsk. rewrite Hlook. now rewrite decide_True. }
  { intros sk Hsk Hgone. unfold registered. rewrite Hlook, decide_False by done.
    apply list_elem_of_filter in Hsk as [_ Hsk].
    now apply socketList_registered in Hsk. }
  assert (Hpass : readThread_body processMessage s = (out, s')).
  { rewrite Hbody. unfold bind. now rewrite Hrun1. }
  exists out, s_err, s', evs.
  split; [exact Hpass|]. split; [exact Hout|]. split.
  { intros Hfree. destruct (readThread_body_returns s Hsel Hfree) as (s2 & Hrun2 & _).
    congruence. }
  split; [exact Hrun1|]. split.
  { rewrite Htrace1. unfold s0. cbn. now rewrite <- app_assoc. }
  split.
  { intros sk Hsk [c Hreg]. rewrite Hlook, decide_True in Hreg; done. }
  split; [exact Hrun|]. split; [exact Htrace|]. split; [exact Hpre|].
  split; [exact Hcalls|]. split; [exact Hnd_reads|]. split; [|split; [exact Hquiet|exact Hwf']].
  intros sk. etrans; [apply (prefix_filter_length _ _ _ Hpre)|].
  now apply calls_at_most_once.
Qed.

(** *** The main loop *)

(** One pass of the main loop, spelled out.  The pass reads the clock
    at [n] (start of the frame timer), at [n + 1] (age of the update
    timer), at the next reading again when the update timer is
    restarted, and then once or twice for the pacing.  It ends in
    [IOError] when it calls [time.sleep] with a duration that cannot
    be slept. *)
Lemma mainLoop_body_run (s : State) :
  let n := clock_reads (os s) in
  let ticks := PrimFloat.sub (clock (S n)) (startTicks (updateTimer s)) in
  let due := PrimFloat.ltb 3600%float ticks in
  let m := if due then S (S (S n)) else S (S n) in
  let elapsed := PrimFloat.sub (clock m) (clock n) in
  let early := PrimFloat.ltb elapsed tick_budget in
  let sleepTime := sleep_time clock n (S m) in
  exists s' : State,
    mainLoop_body world_update clock s =
      (if early && negb (sleep_returns sleepTime) then Raise IOError else Return tt,
       s') /\
    trace s' = trace s ++ [EvTimerStart FpsTimer; EvWorldUpdate 1%float]
                 ++ sync_events due
                 ++ (if early then [EvSleep sleepTime] else []) /\
    updateTimer s' = (if due then {| startTicks := clock (S (S n)) |}
                      else updateTimer s) /\
    fpsTimer s' = {| startTicks := clock n |} /\
    world s' = world_update 1%float (world s) /\
    networkState s' = networkState s /\
    isRunning s' = isRunning s /\
    connectionManager s' = connectionManager s /\
    peers (os s') = peers (os s) /\
    backlog (os s') = backlog (os s) /\
    clock_reads (os s') = (if early then S (S m) else S m).
Proof.
  intros n ticks due m elapsed early sleepTime.
  unfold mainLoop_body, mainLoop_sync, mainLoop_pace, timer_start, timer_getTicks,
    time_sleep, call_world_update, clock_now.
  unfold_calls. subst sleepTime early elapsed m due ticks n. unfold sleep_time. cbn.
  repeat (split_path; cbn).
  all: eexists; (split; [reflexivity|]); cbn.
  all: rewrite <- ?app_assoc; repeat split; reflexivity.
Qed.

(** C5.  In a pass of the main loop, [ticks] is what
    [updateTimer.getTicks()] returns.  When it exceeds 3600 the pass
    sends one world update and one player synchronisation and then
    restarts the update timer; otherwise it sends neither and leaves
    the timer alone.  The pass returns, or ends in the [IOError] of a
    [time.sleep] that comes after the synchronisation. *)
Theorem mainLoop_body_full_sync (s : State) :
  let n := clock_reads (os s) in
  let ticks := PrimFloat.sub (clock (S n)) (startTicks (updateTimer s)) in
  let out := fst (mainLoop_body world_update clock s) in
  let s' := snd (mainLoop_body world_update clock s) in
  let evs := drop (length (trace s)) (trace s') in
  (out = Return tt \/ out = Raise IOError) /\
  trace s' = trace s ++ evs /\
  if PrimFloat.ltb 3600%float ticks then
    count is_world_sync evs = 1%nat /\
    count is_player_sync evs = 1%nat /\
    count is_update_timer_start evs = 1%nat /\
    (exists pre post,
        evs = pre ++ [EvSendWorldUpdate; EvSyncPlayers; EvTimerStart UpdateTimer] ++ post) /\
    updateTimer s' = {| startTicks := clock (S (S n)) |}
  else
    count is_world_sync evs = 0%nat /\
    count is_player_sync evs = 0%nat /\
    count is_update_timer_start evs = 0%nat /\
    updateTimer s' = updateTimer s.
Proof.
  intros n ticks out s' evs.
  destruct (mainLoop_body_run s) as (s1 & Hrun & Htrace & Htimer & _).
  fold n in Hrun, Htrace, Htimer. fold ticks in Hrun, Htrace, Htimer.
  subst out s' evs. rewrite Hrun. cbn [fst snd].
  rewrite Htrace, drop_app_length, Htimer.
  split; [destruct (_ && _); auto|]. split; [reflexivity|].
  destruct (PrimFloat.ltb 3600 ticks); cbn [sync_events].
  - repeat split;
      try (destruct (PrimFloat.ltb _ tick_budget); reflexivity).
    eexists [_; _], _. reflexivity.
  - repeat split; destruct (PrimFloat.ltb _ tick_budget); reflexivity.
Qed.


(** *** Socket setup *)

(** [__setupSocket], spelled out. *)
Lemma setupSocket_run (s : State) :
  exists s' : State,
    setupSocket s = (Return tt, s') /\
    trace s' = trace s ++ setup_calls (listenAddress s) (listenPort s) (os s)
                       ++ setup_end (os s) /\
    networkState s' = match setup_failure (os s) with
                      | Some _ => Error
                      | None => Running
                      end /\
    isRunning s' = isRunning s /\
    os s' = os s /\
    connectionManager s' = connectionManager s /\
    world s' = world s.
Proof.
  unfold setupSocket, os_call, set_networkState, setup_failure, setup_calls, setup_end,
    setup_failure.
  unfold_calls. cbn.
  destruct (socket_outcome (os s)) as [ex|]; cbn;
    [eexists; rewrite <- !app_assoc; now repeat split|].
  destruct (bind_outcome (os s)) as [ex|]; cbn;
    [eexists; rewrite <- !app_assoc; now repeat split|].
  destruct (listen_outcome (os s)) as [ex|]; cbn;
    eexists; rewrite <- !app_assoc; now repeat split.
Qed.

(** C7 (amended).  The constructor leaves [networkState] at [Closed].
    [__setupSocket] returns normally and assigns [networkState]
    exactly once, as its last step: [Running] when [socket], [bind]
    and [listen] all succeed, [Error] when one of them raises, after
    the exception is logged.  [Starting] is never assigned, so the
    state goes from [Closed] straight to [Running] or to [Error]. *)
Theorem setupSocket_lifecycle (s : State) :
  let s' := snd (setupSocket s) in
  let evs := drop (length (trace s)) (trace s') in
  (forall ids addr port w o, networkState (init ids addr port w o : State) = Closed) /\
  fst (setupSocket s) = Return tt /\
  trace s' = trace s ++ evs /\
  evs = setup_calls (listenAddress s) (listenPort s) (os s) ++ setup_end (os s) /\
  lifecycle evs = [networkState s'] /\
  networkState s' = match setup_failure (os s) with
                    | Some _ => Error
                    | None => Running
                    end /\
  ~ In Starting (lifecycle evs).
Proof.
  intros s' evs. subst s' evs.
  destruct (setupSocket_run s) as (s1 & Hrun & Htrace & Hnet & _).
  rewrite Hrun. cbn [fst snd]. rewrite Htrace, drop_app_length, Hnet.
  split; [reflexivity|]. split; [reflexivity|].
  split; [reflexivity|]. split; [reflexivity|].
  unfold setup_calls, setup_end, setup_failure.
  destruct (socket_outcome (os s)), (bind_outcome (os s)), (listen_outcome (os s));
    cbn; (split; [reflexivity|]); (split; [reflexivity|]);
    intros [H|[]]; discriminate.
Qed.

(** *** The accept loop *)

Lemma acceptLoop_exits (fuel : nat) (s : State) :
  networkState s <> Running -> acceptLoop fuel s = (Return Exited, s).
Proof.
  intros H. destruct fuel; cbn; unfold bind, gets; now rewrite decide_False.
Qed.

(** The registry invariant holds from the start and through the
    accept loop. *)
Lemma init_wf ids addr port w o :
  cm_wf (connectionManager (init ids addr port w o : State)).
Proof. apply cm_wf_new. Qed.

Lemma acceptLoop_body_wf (s : State) :
  cm_wf (connectionManager s) ->
  cm_wf (connectionManager (snd (acceptLoop_body s))).
Proof.
  intros Hwf. unfold acceptLoop_body, socket_accept, getNewClientId, addConnection.
  unfold_calls. cbn.
  destruct (backlog (os s)) as [|[[[sk addr] st]|ex] rest]; cbn; [done| |done].
  now apply cm_wf_add.
Qed.

(** A pass whose [accept] returns a client, spelled out. *)
Lemma acceptLoop_body_client (s : State) (sk : Socket) (addr : Address)
    (st : SocketState) (rest : list (result (Socket * Address * SocketState))) :
  backlog (os s) = Return (sk, addr, st) :: rest ->
  let c := ConnectionInfo_new sk addr (fst (cm_getNewClientId (connectionManager s))) in
  exists s' : State,
    acceptLoop_body s = (Return true, s') /\
    trace s' = trace s ++ [EvAccept; EvLogDebug "New connection from ";
                           EvLogDebug "Client id: "; EvAddConnection c] /\
    connectionManager s' =
      cm_addConnection c (snd (cm_getNewClientId (connectionManager s))) /\
    backlog (os s') = rest /\
    peers (os s') = <[sk := st]> (peers (os s)) /\
    select_outcomes (os s') = select_outcomes (os s) /\
    networkState s' = networkState s.
Proof.
  intros Hbacklog c. subst c.
  unfold acceptLoop_body, socket_accept, getNewClientId, addConnection.
  unfold_calls. cbn. rewrite Hbacklog. cbn.
  eexists. split; [reflexivity|]. cbn. rewrite <- !app_assoc. now repeat split.
Qed.

(** C8.  With [networkState] at [Running], a pass of the accept loop
    whose [accept] returns a socket and an address builds the
    connection of that socket and address with the client id that
    [getNewClientId] returns, adds exactly that connection to the
    registry, and goes on to the next pass.  The id is new among the
    registered ones whenever those were all handed out before.  With
    [networkState] not at [Running] the loop ends without a pass. *)
Theorem acceptLoop_registers :
  (forall (s : State) (clientsock : Socket) (clientaddr : Address) (st : SocketState)
          (rest : list (result (Socket * Address * SocketState))) (fuel : nat),
      networkState s = Running ->
      backlog (os s) = Return (clientsock, clientaddr, st) :: rest ->
      let id := fst (cm_getNewClientId (connectionManager s)) in
      let connection := ConnectionInfo_new clientsock clientaddr id in
      exists s' : State,
        acceptLoop_body s = (Return true, s') /\
        socket connection = clientsock /\
        address connection = clientaddr /\
        clientNumber connection = id /\
        connections (connectionManager s') =
          <[clientsock := connection]> (connections (connectionManager s)) /\
        trace s' = trace s ++ [EvAccept; EvLogDebug "New connection from ";
                               EvLogDebug "Client id: "; EvAddConnection connection] /\
        (cm_ids_fresh (connectionManager s) ->
         (forall sk c, connections (connectionManager s) !! sk = Some c ->
                       clientNumber c <> id) /\
         cm_ids_fresh (connectionManager s')) /\
        networkState s' = Running /\
        acceptLoop (S fuel) s = acceptLoop fuel s') /\
  (forall (fuel : nat) (s : State),
      networkState s <> Running -> acceptLoop fuel s = (Return Exited, s)).
Proof.
  split; [|exact acceptLoop_exits].
  intros s clientsock clientaddr st rest fuel Hstate Hbacklog id connection.
  destruct (acceptLoop_body_client s clientsock clientaddr st rest Hbacklog)
    as (s' & Hrun & Htrace & Hcm & _ & _ & _ & Hnet).
  exists s'. split; [exact Hrun|]. do 3 (split; [reflexivity|]).
  split; [now rewrite Hcm|]. split; [exact Htrace|].
  split; [|split; [congruence|]].
  - intros Hfresh. split.
    + intros sk c Hc. specialize (Hfresh _ _ Hc). subst id. cbn. lia.
    + intros sk c. rewrite Hcm. unfold cm_addConnection. cbn.
      intros Hc. apply lookup_insert_Some in Hc as [[_ <-]|[_ Hc]].
      * subst connection id. cbn. lia.
      * specialize (Hfresh _ _ Hc). lia.
  - cbn [acceptLoop]. unfold bind at 1. unfold gets.
    rewrite decide_True by done. unfold bind. now rewrite Hrun.
Qed.

(** *** Start *)


(** What a steady clock gives a pass that starts its frame timer at
    reading [n]. *)
Lemma steady_until_at (N n : nat) :
  steady_until clock N = true -> (n < N)%nat ->
  sleep_returns (sleep_time clock n (S (S (S n)))) = true /\
  sleep_returns (sleep_time clock n (S (S (S (S n))))) = true.
Proof.
  intros H Hn. unfold steady_until in H. rewrite forallb_forall in H.
  specialize (H n ltac:(apply in_seq; lia)). apply andb_prop in H.
  replace (n + 3)%nat with (S (S (S n))) in H by lia.
  replace (n + 4)%nat with (S (S (S (S n)))) in H by lia. exact H.
Qed.

Lemma steady_until_le (N N' : nat) :
  (N' <= N)%nat -> steady_until clock N = true -> steady_until clock N' = true.
Proof.
  unfold steady_until. rewrite !forallb_forall. intros Hle H n Hn. apply H.
  apply in_seq in Hn. apply in_seq. lia.
Qed.

(** A pass of the main loop, as the loop sees it. *)
Lemma mainLoop_body_events (s : State) :
  exists (out : outcome unit) (s' : State) (evs : list Event),
    mainLoop_body world_update clock s = (out, s') /\
    (out = Return tt \/ out = Raise IOError) /\
    (steady_until clock (S (clock_reads (os s))) = true -> out = Return tt) /\
    trace s' = trace s ++ evs /\
    List.filter is_world_update evs = [EvWorldUpdate 1%float] /\
    protocol_calls evs = [] /\
    count is_world_sync evs = count is_player_sync evs /\
    (count is_world_sync evs <= 1)%nat /\
    world s' = world_update 1%float (world s) /\
    networkState s' = networkState s /\
    isRunning s' = isRunning s /\
    connectionManager s' = connectionManager s /\
    peers (os s') = peers (os s) /\
    backlog (os s') = backlog (os s) /\
    (clock_reads (os s) + 3 <= clock_reads (os s') <= clock_reads (os s) + 5)%nat.
Proof.
  destruct (mainLoop_body_run s)
    as (s1 & Hrun & Htrace & _ & _ & Hworld & Hnet & Hrunning & Hcm & Hpeers & Hbacklog
        & Hclock).
  eexists _, s1, _. split; [exact Hrun|].
  split; [destruct (_ && _); auto|]. split.
  { intros Hsteady.
    destruct (steady_until_at _ (clock_reads (os s)) Hsteady ltac:(lia)) as [H3 H4].
    destruct (PrimFloat.ltb 3600 _); [rewrite H4|rewrite H3];
      now rewrite andb_false_r. }
  split; [exact Htrace|].
  rewrite Hclock.
  repeat split; try done;
    destruct (PrimFloat.ltb 3600 _); destruct (PrimFloat.ltb _ tick_budget);
    cbn; try reflexivity; lia.
Qed.

(** The main loop: each pass updates the world once, and the loop goes
    on until a sleep raises. *)
Lemma mainLoop_while_run (fuel : nat) (s : State) :
  isRunning s = true ->
  exists (out : outcome LoopEnd) (s' : State) (evs : list Event) (k : nat),
    mainLoop_while world_update clock fuel s = (out, s') /\
    (out = Return StillLooping /\ k = fuel \/
     out = Raise IOError /\ (1 <= k <= fuel)%nat) /\
    (steady_until clock (clock_reads (os s) + 5 * fuel) = true ->
     out = Return StillLooping) /\
    trace s' = trace s ++ evs /\
    List.filter is_world_update evs = repeat (EvWorldUpdate 1%float) k /\
    protocol_calls evs = [] /\
    count is_world_sync evs = count is_player_sync evs /\
    (count is_world_sync evs <= k)%nat /\
    world s' = Nat.iter k (world_update 1%float) (world s) /\
    networkState s' = networkState s /\
    isRunning s' = true /\
    connectionManager s' = connectionManager s /\
    peers (os s') = peers (os s) /\
    backlog (os s') = backlog (os s) /\
    (clock_reads (os s) + 3 * k <= clock_reads (os s')
     <= clock_reads (os s) + 5 * k)%nat.
Proof.
  revert s. induction fuel as [|fuel IH]; intros s Hrunning.
  - exists (Done (Return StillLooping)), s, [], 0%nat.
    cbn. unfold bind, gets. rewrite Hrunning, app_nil_r.
    repeat split; auto; lia.
  - destruct (mainLoop_body_events s)
      as (out1 & s1 & evs1 & Hrun1 & Hout1 & Hsteady1 & Htrace1 & Hupdate1 & Hcalls1
          & Hsync1 & Hle1 & Hworld1 & Hnet1 & Hrunning1 & Hcm1 & Hpeers1 & Hbacklog1
          & Hclock1).
    assert (Hstep : mainLoop_while world_update clock (S fuel) s =
                    match out1 with
                    | Done (Return _) => mainLoop_while world_update clock fuel s1
                    | Done (Raise ex) => (Raise ex, s1)
                    | Blocks => (Blocks, s1)
                    end).
    { cbn [mainLoop_while]. unfold bind at 1. unfold gets. rewrite Hrunning.
      unfold bind. now rewrite Hrun1. }
    destruct Hout1 as [->| ->].
    + destruct (IH s1)
        as (out & s' & evs & k & Hloop & Hout & Hsteady & Htrace & Hupdates & Hcalls
            & Hsync & Hle & Hworld & Hnet & Hrunning' & Hcm & Hpeers & Hbacklog & Hclock);
        [congruence|].
      exists out, s', (evs1 ++ evs), (S k).
      split; [now rewrite Hstep|]. split; [destruct Hout as [[-> ->]|[-> ?]]; auto with lia|].
      split.
      { intros H. apply Hsteady. eapply steady_until_le; [|exact H]. lia. }
      split; [now rewrite Htrace, Htrace1, app_assoc|].
      split; [now rewrite List.filter_app, Hupdates, Hupdate1|].
      split; [now rewrite protocol_calls_app, Hcalls, Hcalls1|].
      unfold count in *. rewrite !List.filter_app, !length_app.
      split; [lia|]. split; [lia|].
      split; [rewrite Hworld, Hworld1; symmetry; apply Nat.iter_succ_r|].
      repeat split; try congruence; lia.
    + exists (Done (Raise IOError)), s1, evs1, 1%nat.
      split; [now rewrite Hstep|]. split; [right; split; [done|lia]|].
      split.
      { intros H. exfalso. enough (Done (Raise IOError) = Done (Return tt)) by done.
        apply Hsteady1. eapply steady_until_le; [|exact H]. lia. }
      split; [exact Htrace1|]. split; [exact Hupdate1|]. split; [exact Hcalls1|].
      split; [exact Hsync1|]. split; [exact Hle1|]. split; [exact Hworld1|].
      repeat split; try congruence; lia.
Qed.


(** ** Further properties of the server *)

(** *** The length prefix *)

Lemma byte_val_range (b : byte) : 0 <= byte_val b < 256.
Proof.
  unfold byte_val. pose proof (Byte.to_N_bounded b) as H. lia.
Qed.

Lemma byte_val_inj (a b : byte) : byte_val a = byte_val b -> a = b.
Proof.
  unfold byte_val. intros H. apply N2Z.inj in H.
  pose proof (Byte.of_to_N a) as Ha. pose proof (Byte.of_to_N b) as Hb.
  rewrite H in Ha. congruence.
Qed.

(** X1.  A four-byte header always decodes, to a length in the signed
    32-bit range that is negative exactly when the last byte has its
    top bit set; two headers that decode to the same length are the
    same bytes; a string of any other length does not decode. *)
Theorem unpack_HEADER_FORMAT_signed32 :
  (forall b0 b1 b2 b3 : byte,
      exists L : Z,
        unpack_HEADER_FORMAT [b0; b1; b2; b3] = Return L /\
        - 2 ^ 31 <= L < 2 ^ 31 /\
        (L < 0 <-> 128 <= byte_val b3) /\
        L mod 2 ^ 32 =
          byte_val b0 + 2 ^ 8 * byte_val b1 + 2 ^ 16 * byte_val b2 + 2 ^ 24 * byte_val b3) /\
  (forall (h1 h2 : list byte) (L : Z),
      unpack_HEADER_FORMAT h1 = Return L ->
      unpack_HEADER_FORMAT h2 = Return L ->
      h1 = h2) /\
  (forall s : list byte,
      length s <> 4%nat -> unpack_HEADER_FORMAT s = Raise StructError).
Proof.
  split; [|split].
  - intros b0 b1 b2 b3. eexists. split; [reflexivity|].
    pose proof (byte_val_range b0). pose proof (byte_val_range b1).
    pose proof (byte_val_range b2). pose proof (byte_val_range b3).
    unfold to_signed32. cbn [le_unsigned].
    case_match; [apply Z.ltb_lt in H3|apply Z.ltb_ge in H3].
    + split; [lia|]. split; [lia|]. rewrite Z.mod_small by lia. lia.
    + split; [lia|]. split; [lia|].
      rewrite <- (Z_mod_plus_full _ 1). rewrite Z.mod_small by lia. lia.
  - intros h1 h2 L. unfold unpack_HEADER_FORMAT.
    destruct h1 as [|a0 [|a1 [|a2 [|a3 [|]]]]]; cbn; try discriminate.
    destruct h2 as [|b0 [|b1 [|b2 [|b3 [|]]]]]; cbn; try discriminate.
    intros H1 H2. simplify_eq.
    pose proof (byte_val_range a0). pose proof (byte_val_range a1).
    pose proof (byte_val_range a2). pose proof (byte_val_range a3).
    pose proof (byte_val_range b0). pose proof (byte_val_range b1).
    pose proof (byte_val_range b2). pose proof (byte_val_range b3).
    unfold to_signed32 in *. cbn [le_unsigned] in *.
    assert (byte_val a0 = byte_val b0 /\ byte_val a1 = byte_val b1 /\
            byte_val a2 = byte_val b2 /\ byte_val a3 = byte_val b3) as (E0 & E1 & E2 & E3).
    { repeat case_match;
        repeat match goal with
               | H : (_ <? _) = true |- _ => apply Z.ltb_lt in H
               | H : (_ <? _) = false |- _ => apply Z.ltb_ge in H
               end; lia. }
    apply byte_val_inj in E0, E1, E2, E3. now subst.
  - intros s H. unfold unpack_HEADER_FORMAT.
    destruct (Nat.eqb_spec (length s) 4); [done|reflexivity].
Qed.

(** *** One call of [__doProtocol] *)

(** X2.  A payload that arrives short is not noticed: when the second
    [recv] returns only [k] of the [L] announced bytes, with
    [1 <= k < L], the [k] bytes are decoded and dispatched as a
    message whose body has [k - 1] bytes; if the handler returns, the
    connection stays registered and nothing is removed or announced.
    The bytes that arrive later are what the next call reads as a
    header. *)
Theorem doProtocol_truncated_payload
    (s : State) (c : ConnectionInfo) (st : SocketState)
    (header payload : list byte) (script1 script2 : list arrival) (L : Z) (w : World) :
  connections (connectionManager s) !! socket c = Some c ->
  peers (os s) !! socket c = Some st ->
  recv_from 4 (inbound st) = (Return header, script1) ->
  length header = 4%nat ->
  unpack_HEADER_FORMAT header = Return L ->
  recv_from L script1 = (Return payload, script2) ->
  (1 <= length payload)%nat ->
  Z.of_nat (length payload) < L ->
  processMessage (message_of payload) (set_data payload c) (world s) = (Return tt, w) ->
  let s' := snd (doProtocol processMessage (Some c) s) in
  trace s' = trace s ++
    [EvDoProtocol (Some (socket c)); EvRecv (socket c) 4; EvRecv (socket c) L;
     EvProcessMessage (message_of payload) (set_data payload c)] /\
  Z.of_nat (length (body (message_of payload))) = Z.of_nat (length payload) - 1 /\
  Z.of_nat (length (body (message_of payload))) < L - 1 /\
  connections (connectionManager s') !! socket c = Some (set_data payload c) /\
  peers (os s') !! socket c = Some (set_inbound script2 st).
Proof.
  intros Hreg Hpeer Hrecv1 Hlen Hunpack Hrecv2 Hk HL Hhandler s'.
  destruct payload as [|b rest]; [cbn in Hk; lia|].
  destruct (doProtocol_payload_run s c st header b rest script1 script2 L
              Hpeer Hrecv1 Hlen Hunpack Hrecv2)
    as (s1 & Hrun & Htrace & _ & Hpeers & Hcm & _).
  cbn [message_of] in Hhandler. rewrite Hhandler in Htrace, Hcm. cbn in Htrace, Hcm.
  subst s'. rewrite Hrun. cbn [snd message_of body].
  split; [exact Htrace|]. cbn [length] in *.
  split; [lia|]. split; [lia|].
  rewrite Hcm, Hpeers. destruct (cm_store_held c (b :: rest) _ Hreg) as [-> _].
  now rewrite !lookup_insert_eq.
Qed.

(** X3.  What one call does to a registered connection.  The call
    returns, or it is stuck in a [recv] on a silent peer.  It
    dispatches at most one message, removes at most once and sends at
    most one disconnect notice.  If the call returns and the
    connection is still registered afterwards, exactly one message was
    dispatched, nothing was removed or announced, and the registry
    holds the connection with the payload stored in it; if the
    connection is not registered afterwards, it was removed exactly
    once.  A disconnect notice is only ever sent when nothing was
    dispatched.  A call that is stuck has dispatched, removed and
    announced nothing and has left the registry as it was. *)
Theorem doProtocol_keeps_or_removes (s : State) (c : ConnectionInfo) :
  connections (connectionManager s) !! socket c = Some c ->
  let out := fst (doProtocol processMessage (Some c) s) in
  let s' := snd (doProtocol processMessage (Some c) s) in
  let evs := drop (length (trace s)) (trace s') in
  (out = Return tt \/ out = Blocks) /\
  trace s' = trace s ++ evs /\
  (count is_dispatch evs <= 1)%nat /\
  (count is_removal evs <= 1)%nat /\
  (count is_notice evs <= 1)%nat /\
  (out = Return tt -> registered (socket c) s' ->
   count is_dispatch evs = 1%nat /\
   count is_removal evs = 0%nat /\
   count is_notice evs = 0%nat /\
   exists d, connections (connectionManager s') !! socket c = Some (set_data d c)) /\
  (~ registered (socket c) s' ->
   out = Return tt /\ count (is_removal_of (socket c)) evs = 1%nat) /\
  (count is_notice evs = 1%nat -> count is_dispatch evs = 0%nat) /\
  (out = Blocks ->
   count is_dispatch evs = 0%nat /\
   count is_removal evs = 0%nat /\
   count is_notice evs = 0%nat /\
   connectionManager s' = connectionManager s).
Proof.
  intros Hreg out s' evs. subst out s' evs.
  unfold doProtocol, doProtocol_try. unfold_calls. cbn.
  run_paths.
  all: cbn; rewrite <- ?app_assoc; rewrite drop_app_length; cbn.
  all: rewrite ?bool_decide_true by reflexivity; cbn.
  all: split; [auto|]; split; [reflexivity|]; do 3 (split; [lia|]).
  all: split; [|split; [|split]].
  all: unfold registered; cbn.
  all: try solve [intros ?; first [reflexivity|discriminate]].
  all: try solve [intros _; repeat split].
  all: try solve [intros _ Hr; exfalso; rewrite ?cm_remove_lookup in Hr;
                  destruct Hr; discriminate].
  all: try solve [intros _ _; repeat split;
                  rewrite (proj1 (cm_store_held c _ _ Hreg)), lookup_insert_eq; eauto].
  all: try solve [intros Hr; exfalso; apply Hr;
                  rewrite ?(proj1 (cm_store_held c _ _ Hreg)), ?lookup_insert_eq; eauto].
Qed.

(** *** What the read side leaves alone *)

Lemma readThread_not_exited (fuel : nat) (s : State) :
  networkState s = Running ->
  fst (readThread processMessage fuel s) <> Return Exited.
Proof.
  revert s. induction fuel as [|fuel IH]; intros s Hnet; cbn; unfold bind, gets;
    rewrite decide_True by done; [done|].
  pose proof (readThread_body_serves_only s) as Hserves.
  destruct (readThread_body processMessage s) as [[[[]|ex]|] s1]; cbn in *; [|done..].
  apply IH. destruct Hserves as (Hn & _). congruence.
Qed.

(** X4.  The read side only serves.  However a pass of the read loop
    ends, it changes nothing but the world, what the peers still have
    to deliver, the selects to come, the registry entries and the
    trace: it registers no connection and hands out no client id, it
    leaves the network state, [isRunning], both timers and the accept
    backlog alone.  The same holds of any number of passes, so every
    socket registered afterwards was registered before.  The read
    loop, once it finds the network state at [Running], never finds it
    changed: it ends only in an exception of [select] or stuck in a
    [recv], and when no [select] raises and no peer stays silent it
    takes every pass it has fuel for. *)
Theorem readThread_only_serves (s : State) :
  serves_only s (snd (readThread_body processMessage s)) /\
  (select_failure (os s) = None -> stall_free s ->
   fst (readThread_body processMessage s) = Return tt) /\
  (forall fuel : nat,
      let out := fst (readThread processMessage fuel s) in
      let s' := snd (readThread processMessage fuel s) in
      serves_only s s' /\
      (forall sk, registered sk s' -> registered sk s) /\
      (networkState s = Running -> out <> Return Exited) /\
      (networkState s = Running -> selects_well (os s) -> stall_free s ->
       out = Return StillLooping)).
Proof.
  split; [apply readThread_body_serves_only|]. split.
  { intros Hsel Hfree. destruct (readThread_body_returns s Hsel Hfree) as (s' & Hrun & _).
    now rewrite Hrun. }
  intros fuel out s'. subst out s'.
  pose proof (readThread_serves_only fuel s) as Hs.
  split; [exact Hs|]. split; [|split].
  - intros sk [c Hc]. destruct Hs as (_ & _ & _ & _ & _ & _ & _ & _ & Hshrink & _).
    unfold registered. destruct (connections (connectionManager s) !! sk) eqn:E; [eauto|].
    rewrite (Hshrink _ E) in Hc. discriminate.
  - apply readThread_not_exited.
  - intros Hnet Hsel Hfree.
    destruct (readThread_returns fuel s Hnet Hsel Hfree) as (s' & Hrun & _).
    now rewrite Hrun.
Qed.

(** *** One connection among the others *)

Lemma dispatches_for_app sk evs1 evs2 :
  dispatches_for sk (evs1 ++ evs2) = dispatches_for sk evs1 ++ dispatches_for sk evs2.
Proof. apply omap_app. Qed.

Lemma count_app p evs1 evs2 : count p (evs1 ++ evs2) = (count p evs1 + count p evs2)%nat.
Proof. unfold count. now rewrite List.filter_app, length_app. Qed.

(** Events that do not name a socket hold no [recv] on it, no dispatch
    for it and no call of the protocol step on it. *)
Lemma no_mention_counts sk evs :
  Forall (fun e => ~ mentions sk e) evs ->
  dispatches_for sk evs = [] /\
  count (is_recv_on sk) evs = 0%nat /\
  Some sk ∉ protocol_calls evs.
Proof.
  induction 1 as [|e evs He _ (IH1 & IH2 & IH3)]; [repeat split; apply not_elem_of_nil|].
  unfold dispatches_for, count, protocol_calls in *. cbn. rewrite IH1.
  destruct e as [| | | | | | |r n| | | | | |[r|]|m c'| | | | | |]; cbn in *; try done.
  - rewrite bool_decide_false by done. done.
  - repeat split; try done. apply not_elem_of_cons. split; [congruence|done].
  - repeat split; try done. apply not_elem_of_cons. split; [congruence|done].
  - rewrite decide_False by done. done.
Qed.

Lemma removals_no_calls sk (errs : list Socket) :
  dispatches_for sk (map (fun r => EvRemoveConnection (Some r)) errs) = [] /\
  count (is_recv_on sk) (map (fun r => EvRemoveConnection (Some r)) errs) = 0%nat /\
  protocol_calls (map (fun r => EvRemoveConnection (Some r)) errs) = [].
Proof. induction errs as [|r errs (IH1 & IH2 & IH3)]; [done|]. now cbn. Qed.

Lemma for_each_app_run {A} (f : A -> M State unit) (l1 l2 : list A) (s s1 : State) :
  for_each l1 f s = (Return tt, s1) ->
  for_each (l1 ++ l2) f s = for_each l2 f s1.
Proof.
  revert s. induction l1 as [|x l1 IH]; intros s; cbn.
  - unfold ret. now intros [= ->].
  - unfold bind. destruct (f x s) as [[[[]|ex]|] s0]; [apply IH|discriminate..].
Qed.

Lemma elsewhere_refl sk (s : State) : elsewhere sk s s.
Proof. intros Hwf. repeat split; try done. exists []. now rewrite app_nil_r. Qed.

Lemma elsewhere_trans sk (s1 s2 s3 : State) :
  elsewhere sk s1 s2 -> elsewhere sk s2 s3 -> elsewhere sk s1 s3.
Proof.
  intros H1 H2 Hwf.
  destruct (H1 Hwf) as (Hwf2 & Hc1 & Hp1 & Hf1 & evs1 & Ht1 & Hm1).
  destruct (H2 Hwf2) as (Hwf3 & Hc2 & Hp2 & Hf2 & evs2 & Ht2 & Hm2).
  split; [done|]. split; [congruence|]. split; [congruence|]. split; [auto|].
  exists (evs1 ++ evs2). split; [now rewrite Ht2, Ht1, app_assoc|now apply Forall_app].
Qed.

(** Serving another socket leaves the connection of [sk] alone. *)
Lemma serve_other (sk r : Socket) (s : State) :
  r <> sk ->
  elsewhere sk s (snd ((c <- findConnection r;; doProtocol processMessage c) s)).
Proof.
  clear world_update clock.
  intros Hne Hwf. unfold findConnection, bind, gets, cm_findConnection.
  pose proof (doProtocol_stall_free (Some sk) (connections (connectionManager s) !! r) s)
    as Hstall.
  destruct (connections (connectionManager s) !! r) as [c|] eqn:Hc.
  - pose proof (Hwf _ _ Hc) as Hsock.
    destruct (doProtocol_Some c s)
      as (out & s' & evs & Hrun & _ & Htrace & Habout & Hother & Hwf' & _ & Hpeers).
    rewrite Hrun in *. cbn [snd] in *. rewrite Hsock in *.
    split; [auto|]. split; [now apply Hother|]. split; [now apply Hpeers|].
    split; [intros Hfree; now apply Hstall|].
    exists (EvDoProtocol (Some r) :: evs). split; [exact Htrace|].
    constructor; [cbn; congruence|]. now apply (about_no_mention r).
  - rewrite doProtocol_None in *. cbn [snd] in *.
    split; [done|]. split; [done|]. split; [done|]. split; [done|].
    eexists. split; [reflexivity|]. repeat constructor; cbn; tauto.
Qed.

Lemma readThread_reads_skip (sk : Socket) (reads : list Socket) (s : State) :
  sk ∉ reads ->
  elsewhere sk s (snd (readThread_reads processMessage reads s)).
Proof.
  intros Hout. unfold readThread_reads.
  apply (for_each_rel (elsewhere sk)); [apply elsewhere_refl|apply elsewhere_trans|].
  intros r s1 Hr. apply serve_other. now intros ->.
Qed.

(** Sockets that no silent peer is behind are served to the end. *)
Lemma readThread_reads_skip_returns (sk : Socket) (reads : list Socket) (s : State) :
  sk ∉ reads ->
  cm_wf (connectionManager s) ->
  stall_free_but (Some sk) s ->
  exists s' : State, readThread_reads processMessage reads s = (Return tt, s').
Proof.
  intros Hout Hwf Hfree. unfold readThread_reads.
  destruct (for_each_returns
              (fun s => cm_wf (connectionManager s) /\ stall_free_but (Some sk) s)
              (fun r => c <- findConnection r;; doProtocol processMessage c) reads)
    with (s := s) as (s' & Hrun & _); [|done|now exists s'].
  intros r s1 Hr [Hwf1 Hfree1].
  assert (Hne : r <> sk) by now intros ->.
  destruct (serve_other sk r s1 Hne Hwf1) as (Hwf' & _ & _ & Hfree' & _).
  split; [|auto].
  unfold findConnection, bind, gets, cm_findConnection.
  destruct (doProtocol_stall_free (Some sk) (connections (connectionManager s1) !! r) s1
              Hfree1) as [_ Hret].
  apply Hret. destruct (connections (connectionManager s1) !! r) as [c|] eqn:Hc; [|now right].
  left. cbn. rewrite (Hwf1 _ _ Hc). congruence.
Qed.

(** The state in which a pass of the read loop reaches the read-ready
    sockets, when [select] has returned. *)
Lemma readThread_body_reads (s : State) :
  cm_wf (connectionManager s) ->
  select_failure (os s) = None ->
  let socketList := cm_getListOfSocketsForSelect (connectionManager s) in
  let reads := filter (fun sk => reports readable (os s) sk) socketList in
  let errs := filter (fun sk => reports exceptional (os s) sk) socketList in
  exists s1 : State,
    readThread_body processMessage s = readThread_reads processMessage reads s1 /\
    trace s1 = trace s ++ EvSelect socketList
                 :: map (fun sk => EvRemoveConnection (Some sk)) errs /\
    (forall sk, connections (connectionManager s1) !! sk =
                if reports exceptional (os s) sk then None
                else connections (connectionManager s) !! sk) /\
    cm_wf (connectionManager s1) /\
    peers (os s1) = peers (os s) /\
    NoDup reads /\
    (forall sk, sk ∈ reads <-> reports readable (os s) sk = true /\ registered sk s).
Proof.
  intros Hwf Hsel socketList reads errs.
  destruct (readThread_errors_spec errs (after_select socketList s))
    as (s1 & Hrun1 & Ht1 & Hlook1 & Hwf1 & Hos1).
  { apply NoDup_filter, socketList_NoDup. }
  { exact Hwf. }
  { intros r Hr. apply list_elem_of_filter in Hr as [_ Hr].
    now apply socketList_registered in Hr. }
  exists s1. split; [|split; [|split; [|split; [done|split; [|split]]]]].
  - rewrite readThread_body_run, Hsel. cbv zeta. fold socketList. fold errs. fold reads.
    unfold bind. now rewrite Hrun1.
  - rewrite Ht1. cbn. now rewrite <- app_assoc.
  - intros sk. rewrite Hlook1. cbn.
    destruct (reports exceptional (os s) sk) eqn:Hexc.
    + case_decide as Hin; [done|].
      destruct (connections (connectionManager s) !! sk) as [c|] eqn:Hc; [|done].
      exfalso. apply Hin. apply list_elem_of_filter. split; [now rewrite Hexc|].
      apply socketList_registered. now exists c.
    + rewrite decide_False; [done|].
      intros Hin. apply list_elem_of_filter in Hin as [Hin _]. now rewrite Hexc in Hin.
  - now rewrite Hos1.
  - apply NoDup_filter, socketList_NoDup.
  - intros sk. unfold reads. rewrite list_elem_of_filter. unfold socketList.
    rewrite socketList_registered. split; intros [H1 H2]; split; try done.
    + now destruct (reports readable (os s) sk).
    + now rewrite H1.
Qed.



(** X6.  The read loop never reads a socket that select did not report
    ready.  In a pass, however it ends, a socket that is not reported
    ready for reading sees no [recv] and no dispatch, and what its
    peer has to deliver stays as it was; its connection stays in the
    registry unchanged unless [select] returns and reports an error
    condition on it, in which case it is gone after the pass.  When
    [select] returns and no peer stays silent, the pass returns. *)
Theorem readThread_body_skips_unready (s : State) (sk : Socket) :
  cm_wf (connectionManager s) ->
  reports readable (os s) sk = false ->
  let out := fst (readThread_body processMessage s) in
  let s' := snd (readThread_body processMessage s) in
  exists evs : list Event,
    trace s' = trace s ++ evs /\
    count (is_recv_on sk) evs = 0%nat /\
    dispatches_for sk evs = [] /\
    (Some sk ∉ protocol_calls evs) /\
    peers (os s') !! sk = peers (os s) !! sk /\
    connections (connectionManager s') !! sk =
      match select_failure (os s) with
      | Some _ => connections (connectionManager s) !! sk
      | None => if reports exceptional (os s) sk then None
                else connections (connectionManager s) !! sk
      end /\
    cm_wf (connectionManager s') /\
    (select_failure (os s) = None -> stall_free s -> out = Return tt).
Proof.
  intros Hwf Hidle out s'. subst out s'.
  set (socketList := cm_getListOfSocketsForSelect (connectionManager s)).
  destruct (select_failure (os s)) as [ex|] eqn:Hsel.
  - rewrite readThread_body_run, Hsel. cbn [snd].
    exists [EvSelect socketList]. repeat split; try done. apply not_elem_of_nil.
  - destruct (readThread_body_reads s Hwf Hsel)
      as (s1 & Hbody & Ht1 & Hlook1 & Hwf1 & Hp1 & _ & Hreads).
    fold socketList in Hbody, Ht1, Hreads.
    set (errs := filter (fun r => reports exceptional (os s) r) socketList) in *.
    set (reads := filter (fun r => reports readable (os s) r) socketList) in *.
    assert (Hout : sk ∉ reads).
    { intros H. apply Hreads in H as [H _]. congruence. }
    rewrite Hbody.
    destruct (readThread_reads_skip sk reads s1 Hout Hwf1)
      as (Hwf2 & Hc2 & Hp2 & _ & evs2 & Ht2 & Hm2).
    destruct (no_mention_counts _ _ Hm2) as (Hd2 & Hr2 & Hcalls2).
    destruct (removals_no_calls sk errs) as (Hd1 & Hr1 & Hcalls1).
    exists ((EvSelect socketList
             :: map (fun r => EvRemoveConnection (Some r)) errs) ++ evs2).
    split; [|split; [|split; [|split; [|split; [|split; [|split]]]]]].
    + rewrite Ht2, Ht1. now rewrite <- app_assoc.
    + rewrite count_app, Hr2.
      change (count (is_recv_on sk) (EvSelect socketList :: ?l))
        with (count (is_recv_on sk) l).
      now rewrite Hr1.
    + rewrite dispatches_for_app, Hd2.
      change (dispatches_for sk (EvSelect socketList :: ?l))
        with (dispatches_for sk l).
      now rewrite Hd1.
    + rewrite protocol_calls_app.
      change (protocol_calls (EvSelect socketList :: ?l)) with (protocol_calls l).
      now rewrite Hcalls1.
    + now rewrite Hp2, Hp1.
    + now rewrite Hc2, Hlook1.
    + exact Hwf2.
    + intros _ Hfree. rewrite <- Hbody.
      destruct (readThread_body_returns s Hsel Hfree) as (s2 & Hrun2 & _).
      now rewrite Hrun2.
Qed.

(** A pass of the read loop that reaches a connection whose peer has
    delivered a header and stays silent. *)
Lemma readThread_body_stuck
    (s : State) (c : ConnectionInfo) (st : SocketState)
    (header : list byte) (script1 script2 : list arrival) (L : Z) :
  select_failure (os s) = None ->
  stall_free_but (Some (socket c)) s ->
  cm_wf (connectionManager s) ->
  connections (connectionManager s) !! socket c = Some c ->
  peers (os s) !! socket c = Some st ->
  readable st = true ->
  exceptional st = false ->
  recv_from 4 (inbound st) = (Return header, script1) ->
  length header = 4%nat ->
  unpack_HEADER_FORMAT header = Return L ->
  recv_from L script1 = (Blocks, script2) ->
  let socketList := cm_getListOfSocketsForSelect (connectionManager s) in
  let reads := filter (fun sk => reports readable (os s) sk) socketList in
  exists (s' : State) (evs : list Event) (before after : list Socket),
    readThread_body processMessage s = (Blocks, s') /\
    reads = before ++ socket c :: after /\
    trace s' = trace s ++ evs ++
      [EvDoProtocol (Some (socket c)); EvRecv (socket c) 4; EvRecv (socket c) L] /\
    connections (connectionManager s') !! socket c = Some c /\
    (forall r, r ∈ after ->
       let all := evs ++ [EvDoProtocol (Some (socket c)); EvRecv (socket c) 4;
                          EvRecv (socket c) L] in
       count (is_recv_on r) all = 0%nat /\
       dispatches_for r all = [] /\
       Some r ∉ protocol_calls all) /\
    (forall fuel, networkState s = Running ->
       readThread processMessage (S fuel) s = (Blocks, s')).
Proof.
  intros Hsel Hfree Hwf Hc Hpeer Hread Hexc Hrecv1 Hlen Hunpack Hrecv2 socketList reads.
  destruct (readThread_body_reads s Hwf Hsel)
    as (s1 & Hbody & Ht1 & Hlook1 & Hwf1 & Hp1 & Hnd & Hreads).
  fold socketList in Hbody, Ht1, Hreads, Hnd. fold reads in Hbody, Hreads, Hnd.
  set (errs := filter (fun r => reports exceptional (os s) r) socketList) in *.
  assert (Hin : socket c ∈ reads).
  { apply Hreads. split; [unfold reports; now rewrite Hpeer|now exists c]. }
  assert (Hc1 : connections (connectionManager s1) !! socket c = Some c).
  { rewrite Hlook1. unfold reports. now rewrite Hpeer, Hexc. }
  assert (Hfree1 : stall_free_but (Some (socket c)) s1).
  { intros r st' Hr Hst'. rewrite Hp1 in Hst'. exact (Hfree r st' Hr Hst'). }
  apply list_elem_of_split in Hin as (pre & post & Hsplit).
  pose proof Hnd as Hnd'.
  rewrite Hsplit in Hnd'. apply NoDup_app in Hnd' as (_ & Hpre & Hnd').
  apply NoDup_cons in Hnd' as [Hpost _].
  assert (Hpre' : socket c ∉ pre).
  { intros H. apply (Hpre _ H). now left. }
  destruct (readThread_reads_skip_returns (socket c) pre s1 Hpre' Hwf1 Hfree1)
    as (s2 & Hrun2).
  pose proof (readThread_reads_skip (socket c) pre s1 Hpre' Hwf1) as Hskip2.
  rewrite Hrun2 in Hskip2. cbn [snd] in Hskip2.
  destruct Hskip2 as (Hwf2 & Hc2 & Hp2 & _ & evs2 & Ht2 & _).
  assert (Hc2' : connections (connectionManager s2) !! socket c = Some c) by congruence.
  assert (Hpeer2 : peers (os s2) !! socket c = Some st) by (rewrite Hp2, Hp1; exact Hpeer).
  assert (Hlt : (length header <=? 3)%nat = false) by (apply Nat.leb_gt; lia).
  assert (Hrun3 : exists s3 : State,
             doProtocol processMessage (Some c) s2 = (Blocks, s3) /\
             trace s3 = trace s2 ++ [EvDoProtocol (Some (socket c)); EvRecv (socket c) 4;
                                     EvRecv (socket c) L] /\
             connectionManager s3 = connectionManager s2).
  { unfold doProtocol, doProtocol_try. unfold_calls.
    run_known. eexists. split; [reflexivity|]. cbn. now rewrite <- !app_assoc. }
  destruct Hrun3 as (s3 & Hrun3 & Ht3 & Hcm3).
  assert (Hpass : readThread_body processMessage s = (Blocks, s3)).
  { rewrite Hbody, Hsplit. unfold readThread_reads in *.
    rewrite (for_each_app_run _ pre (socket c :: post) s1 s2 Hrun2).
    apply for_each_stops.
    unfold findConnection, bind, gets, cm_findConnection. rewrite Hc2'. exact Hrun3. }
  exists s3, ((EvSelect socketList
               :: map (fun r => EvRemoveConnection (Some r)) errs) ++ evs2), pre, post.
  split; [exact Hpass|]. split; [exact Hsplit|]. split.
  { rewrite Ht3, Ht2, Ht1. now rewrite <- !app_assoc. }
  split; [now rewrite Hcm3|]. split.
  - intros r Hr all. subst all.
    assert (Hne : r <> socket c) by (intros ->; done).
    assert (Hr' : r ∉ pre).
    { intros H. rewrite Hsplit in Hnd. apply NoDup_app in Hnd as (_ & Hdis & _).
      apply (Hdis _ H). now right. }
    destruct (readThread_reads_skip r pre s1 Hr' Hwf1) as (_ & _ & _ & _ & evs2' & Ht2' & Hm2).
    rewrite Hrun2 in Ht2'. cbn [snd] in Ht2'.
    assert (evs2' = evs2) as -> by (apply (app_inv_head (trace s1)); congruence).
    destruct (no_mention_counts _ _ Hm2) as (Hd2 & Hr2 & Hcalls2).
    destruct (removals_no_calls r errs) as (Hd1 & Hr1 & Hcalls1).
    rewrite !count_app, !dispatches_for_app, !protocol_calls_app, Hr2, Hd2.
    change (count (is_recv_on r) (EvSelect socketList :: ?l))
      with (count (is_recv_on r) l).
    change (dispatches_for r (EvSelect socketList :: ?l)) with (dispatches_for r l).
    change (protocol_calls (EvSelect socketList :: ?l)) with (protocol_calls l).
    rewrite Hr1, Hd1, Hcalls1. unfold count. cbn.
    rewrite !bool_decide_false by congruence.
    split; [done|]. split; [done|].
    rewrite ?app_nil_l. intros H. apply elem_of_app in H as [H|H]; [done|].
    apply list_elem_of_singleton in H. congruence.
  - intros fuel Hnet. cbn [readThread]. unfold bind at 1. unfold gets.
    rewrite decide_True by done. unfold bind. now rewrite Hpass.
Qed.


(** X13.  A client that announces a payload and then stays silent
    stops the read side.  Take a registered connection whose socket
    [select] reports ready to read and without error, whose peer has
    delivered a four-byte header and then nothing, while no other
    peer stays silent.  Then the pass of the read loop is stuck in
    the second [recv] on that socket, which is the last thing it
    does, and so is the read loop; the connection stays registered;
    and none of the read-ready sockets that come after it in the list
    of [select] is read or handed to the protocol step. *)
Theorem readThread_body_stalled_peer
    (s : State) (c : ConnectionInfo) (st : SocketState)
    (header : list byte) (script1 script2 : list arrival) (L : Z) :
  select_failure (os s) = None ->
  stall_free_but (Some (socket c)) s ->
  cm_wf (connectionManager s) ->
  connections (connectionManager s) !! socket c = Some c ->
  peers (os s) !! socket c = Some st ->
  readable st = true ->
  exceptional st = false ->
  recv_from 4 (inbound st) = (Return header, script1) ->
  length header = 4%nat ->
  unpack_HEADER_FORMAT header = Return L ->
  recv_from L script1 = (Blocks, script2) ->
  let socketList := cm_getListOfSocketsForSelect (connectionManager s) in
  let reads := filter (fun sk => reports readable (os s) sk) socketList in
  exists (s' : State) (evs : list Event) (before after : list Socket),
    readThread_body processMessage s = (Blocks, s') /\
    reads = before ++ socket c :: after /\
    trace s' = trace s ++ evs ++
      [EvDoProtocol (Some (socket c)); EvRecv (socket c) 4; EvRecv (socket c) L] /\
    connections (connectionManager s') !! socket c = Some c /\
    (forall r, r ∈ after ->
       let all := evs ++ [EvDoProtocol (Some (socket c)); EvRecv (socket c) 4;
                          EvRecv (socket c) L] in
       count (is_recv_on r) all = 0%nat /\
       dispatches_for r all = [] /\
       Some r ∉ protocol_calls all) /\
    (forall fuel, networkState s = Running ->
       readThread processMessage (S fuel) s = (Blocks, s')).
Proof. apply readThread_body_stuck. Qed.

(** *** A stream of frames *)




(** *** What every pass keeps *)

Lemma cm_keeps_refl cm : cm_keeps cm cm.
Proof. split; [done|]. intros sk c H. now exists c. Qed.

Lemma cm_keeps_trans cm1 cm2 cm3 :
  cm_keeps cm1 cm2 -> cm_keeps cm2 cm3 -> cm_keeps cm1 cm3.
Proof.
  intros [Hid1 H1] [Hid2 H2]. split; [congruence|].
  intros sk c3 H3. destruct (H2 _ _ H3) as (c2 & Hc2 & Hs2 & Hn2).
  destruct (H1 _ _ Hc2) as (c1 & Hc1 & Hs1 & Hn1).
  exists c1. repeat split; congruence.
Qed.

Lemma cm_keeps_remove c cm : cm_keeps cm (cm_removeConnection c cm).
Proof.
  destruct c as [c|]; [|apply cm_keeps_refl].
  unfold cm_removeConnection. split; [done|]. cbn.
  intros sk c' H. apply lookup_delete_Some in H as [_ H]. now exists c'.
Qed.

Lemma cm_keeps_store c d cm : cm_keeps cm (cm_store c d cm).
Proof.
  unfold cm_store.
  destruct (connections cm !! socket c) as [held|] eqn:Hheld; [|apply cm_keeps_refl].
  case_decide as Heq; [|apply cm_keeps_refl]. subst held.
  split; [done|]. cbn. intros sk c' H.
  apply lookup_insert_Some in H as [[<- <-]|[_ H]]; [now exists c|now exists c'].
Qed.

Lemma registry_ok_keeps cm cm' : cm_keeps cm cm' -> registry_ok cm -> registry_ok cm'.
Proof.
  intros [Hid Hkeep] (Hwf & Hfresh & Hdistinct). split; [|split].
  - intros sk c' H. destruct (Hkeep _ _ H) as (c & Hc & Hs & _).
    rewrite Hs. eauto.
  - intros sk c' H. destruct (Hkeep _ _ H) as (c & Hc & _ & Hn).
    rewrite Hid, Hn. eauto.
  - intros sk1 sk2 c1' c2' H1 H2 Heq.
    destruct (Hkeep _ _ H1) as (c1 & Hc1 & _ & Hn1).
    destruct (Hkeep _ _ H2) as (c2 & Hc2 & _ & Hn2).
    apply (Hdistinct sk1 sk2 c1 c2); congruence.
Qed.

Lemma registry_ok_add sk addr cm :
  registry_ok cm ->
  registry_ok (cm_addConnection (ConnectionInfo_new sk addr (fst (cm_getNewClientId cm)))
                 (snd (cm_getNewClientId cm))).
Proof.
  intros (Hwf & Hfresh & Hdistinct). unfold cm_addConnection. cbn.
  split; [|split].
  - intros r c H. cbn in H.
    apply lookup_insert_Some in H as [[<- <-]|[_ H]]; [done|eauto].
  - intros r c H. cbn in *.
    apply lookup_insert_Some in H as [[<- <-]|[_ H]]; [cbn; lia|].
    specialize (Hfresh _ _ H). lia.
  - intros r1 r2 c1 c2 H1 H2 Heq. cbn in *.
    apply lookup_insert_Some in H1 as [[<- <-]|[Hne1 H1]];
      apply lookup_insert_Some in H2 as [[<- <-]|[Hne2 H2]]; [done| | |eauto].
    + specialize (Hfresh _ _ H2). cbn in Heq. lia.
    + specialize (Hfresh _ _ H1). cbn in Heq. lia.
Qed.

Lemma serves_well_refl (s : State) : serves_well s s.
Proof. split; [apply cm_keeps_refl|]. exists []. now rewrite app_nil_r. Qed.

Lemma serves_well_trans (s1 s2 s3 : State) :
  serves_well s1 s2 -> serves_well s2 s3 -> serves_well s1 s3.
Proof.
  intros [Hk1 (evs1 & Ht1 & Hd1)] [Hk2 (evs2 & Ht2 & Hd2)].
  split; [eauto using cm_keeps_trans|]. exists (evs1 ++ evs2).
  split; [now rewrite Ht2, Ht1, app_assoc|now apply Forall_app].
Qed.

Lemma byte_dispatch_ok (b : byte) (rest : list byte) (c : ConnectionInfo) :
  dispatch_ok (EvProcessMessage (appendRaw (str_from1 (b :: rest)) (Message_new (byte_val b)))
                 (set_data (b :: rest) c)).
Proof. cbn. split; [done|]. split; [done|]. pose proof (byte_val_range b). lia. Qed.

(** One call of [__doProtocol], whatever its argument and however it
    ends. *)
Lemma doProtocol_serves_well (connection : option ConnectionInfo) (s : State) :
  serves_well s (snd (doProtocol processMessage connection s)).
Proof.
  unfold doProtocol, doProtocol_try. unfold_calls. cbn.
  run_paths.
  all: repeat match goal with
         | H : str_getitem0 ?d = Return _ |- _ => destruct d; simplify_eq/=
         end.
  all: split;
    [cbn; eauto using cm_keeps_refl, cm_keeps_remove, cm_keeps_store, cm_keeps_trans
    |eexists; rewrite <- ?app_assoc; split; [reflexivity|]].
  all: repeat first [apply Forall_nil; done
                    |apply Forall_cons; split; [first [exact I|apply byte_dispatch_ok]|]].
Qed.

Lemma remove_found_serves_well (serr : Socket) (s : State) :
  serves_well s (snd ((c <- findConnection serr;; removeConnection c) s)).
Proof.
  rewrite remove_found_run. split; cbn.
  - apply cm_keeps_remove.
  - eexists. split; [reflexivity|]. now repeat constructor.
Qed.

Lemma serve_found_serves_well (sk : Socket) (s : State) :
  serves_well s (snd ((c <- findConnection sk;; doProtocol processMessage c) s)).
Proof.
  unfold findConnection, bind, gets. apply doProtocol_serves_well.
Qed.

Lemma readThread_body_serves_well (s : State) :
  serves_well s (snd (readThread_body processMessage s)).
Proof.
  rewrite readThread_body_run. cbv zeta.
  set (socketList := cm_getListOfSocketsForSelect (connectionManager s)).
  assert (H0 : serves_well s (after_select socketList s)).
  { split; [apply cm_keeps_refl|]. exists [EvSelect socketList].
    split; [done|now repeat constructor]. }
  destruct (select_failure (os s)); [exact H0|].
  eapply serves_well_trans; [exact H0|].
  destruct (readThread_errors_total
              (filter (fun sk => reports exceptional (os s) sk) socketList)
              (after_select socketList s)) as (s1 & evs1 & Hrun1 & _).
  assert (Hs1 : serves_well (after_select socketList s) s1).
  { replace s1 with (snd (readThread_errors
                            (filter (fun sk => reports exceptional (os s) sk) socketList)
                            (after_select socketList s))) by now rewrite Hrun1.
    unfold readThread_errors. apply (for_each_rel serves_well);
      [apply serves_well_refl|apply serves_well_trans
      |intros; apply remove_found_serves_well]. }
  unfold bind. rewrite Hrun1.
  eapply serves_well_trans; [exact Hs1|].
  unfold readThread_reads. apply (for_each_rel serves_well);
    [apply serves_well_refl|apply serves_well_trans
    |intros; apply serve_found_serves_well].
Qed.

Lemma readThread_turn (s : State) :
  serves_well s (take_turn processMessage world_update clock ReadTurn s).
Proof.
  cbn. unfold bind at 1. unfold gets. case_decide as Hnet; [|apply serves_well_refl].
  pose proof (readThread_body_serves_well s) as Hs1.
  unfold bind. destruct (readThread_body processMessage s) as [[[[]|ex]|] s1];
    cbn in *; [|exact Hs1..].
  now case_decide.
Qed.

Lemma mainLoop_turn (s : State) :
  serves_well s (take_turn processMessage world_update clock MainTurn s).
Proof.
  cbn. unfold bind at 1. unfold gets.
  destruct (isRunning s) eqn:Hrunning; [|apply serves_well_refl].
  destruct (mainLoop_body_run s)
    as (s1 & Hrun & Htrace & _ & _ & _ & _ & Hr1 & Hcm & _).
  unfold bind. rewrite Hrun.
  assert (Hs1 : serves_well s s1).
  { split; [rewrite Hcm; apply cm_keeps_refl|]. eexists. split; [exact Htrace|].
    destruct (PrimFloat.ltb 3600 _); destruct (PrimFloat.ltb _ tick_budget);
      now repeat constructor. }
  destruct (_ && _); [exact Hs1|]. now destruct (isRunning s1).
Qed.

Lemma acceptLoop_turn (s : State) :
  let s' := take_turn processMessage world_update clock AcceptTurn s in
  (registry_ok (connectionManager s) -> registry_ok (connectionManager s')) /\
  exists evs, trace s' = trace s ++ evs /\ Forall dispatch_ok evs.
Proof.
  cbn. unfold bind at 1. unfold gets. case_decide as Hnet.
  - unfold acceptLoop_body, socket_accept, getNewClientId, addConnection.
    unfold_calls. cbn.
    destruct (backlog (os s)) as [|[[[sk addr] st]|ex] rest]; cbn.
    + split; [done|]. eexists. split; [reflexivity|now repeat constructor].
    + rewrite decide_True by done. cbn. split; [apply registry_ok_add|].
      eexists. rewrite <- !app_assoc. split; [reflexivity|now repeat constructor].
    + split; [done|]. eexists. split; [reflexivity|now repeat constructor].
  - split; [done|]. exists []. now rewrite app_nil_r.
Qed.

(** *** The accept loop over a backlog *)

Lemma accepted_ids_above (cm : ConnectionManager)
    (clients : list (Socket * Address * SocketState)) (c : ConnectionInfo) :
  c ∈ accepted cm clients -> nextClientId cm <= clientNumber c.
Proof.
  revert cm. induction clients as [|[[sk addr] st] clients IH]; intros cm H.
  - now apply elem_of_nil in H.
  - cbn [accepted] in H. apply elem_of_cons in H as [->|H]; [cbn; lia|].
    apply IH in H. cbn in H. lia.
Qed.

(** A client accepted later has a greater id. *)
Lemma accepted_ids_increase (cm : ConnectionManager)
    (clients : list (Socket * Address * SocketState)) (i j : nat) (ci cj : ConnectionInfo) :
  accepted cm clients !! i = Some ci ->
  accepted cm clients !! j = Some cj ->
  (i < j)%nat ->
  clientNumber ci < clientNumber cj.
Proof.
  revert cm i j. induction clients as [|[[sk addr] st] clients IH]; intros cm i j Hi Hj Hlt.
  - discriminate.
  - cbn [accepted] in Hi, Hj. destruct j as [|j]; [lia|]. cbn in Hj.
    destruct i as [|i]; cbn in Hi.
    + simplify_eq. apply list_elem_of_lookup_2 in Hj. apply accepted_ids_above in Hj.
      cbn in *. lia.
    + eapply (IH _ i j); [exact Hi|exact Hj|lia].
Qed.

Lemma accepted_clients (cm : ConnectionManager)
    (clients : list (Socket * Address * SocketState)) :
  map (fun c => (socket c, address c)) (accepted cm clients) = map fst clients.
Proof.
  revert cm. induction clients as [|[[sk addr] st] clients IH]; intros cm; [done|].
  cbn [accepted map]. now rewrite IH.
Qed.

(** The ids handed out depend on the counter of the registry, not on
    its entries. *)
Lemma accepted_ext (cm cm' : ConnectionManager)
    (clients : list (Socket * Address * SocketState)) :
  nextClientId cm = nextClientId cm' ->
  idPolicy cm = idPolicy cm' ->
  accepted cm clients = accepted cm' clients.
Proof.
  revert cm cm'. induction clients as [|[[sk addr] st] clients IH]; intros cm cm' Hid Hpol;
    [done|].
  cbn [accepted]. f_equal; [cbn; now rewrite Hid|].
  apply IH; cbn; [now rewrite Hid, Hpol|exact Hpol].
Qed.

Lemma accepted_add (c : ConnectionInfo) (cm : ConnectionManager)
    (clients : list (Socket * Address * SocketState)) :
  accepted (cm_addConnection c cm) clients = accepted cm clients.
Proof. now apply accepted_ext. Qed.

Lemma acceptLoop_clients
    (clients : list (Socket * Address * SocketState))
    (rest : list (result (Socket * Address * SocketState))) (s : State) :
  networkState s = Running ->
  backlog (os s) = map Return clients ++ rest ->
  let new := accepted (connectionManager s) clients in
  exists (s' : State) (evs : list Event),
    (forall k, acceptLoop (length clients + k) s = acceptLoop k s') /\
    trace s' = trace s ++ evs /\
    added_connections evs = new /\
    connections (connectionManager s')
      = foldl (fun m c => <[socket c := c]> m) (connections (connectionManager s)) new /\
    peers (os s')
      = foldl (fun m x => <[fst (fst x) := snd x]> m) (peers (os s)) clients /\
    select_outcomes (os s') = select_outcomes (os s) /\
    backlog (os s') = rest /\
    networkState s' = Running.
Proof.
  revert s. induction clients as [|[[sk addr] st] clients IH]; intros s Hnet Hbacklog new.
  - exists s, []. rewrite app_nil_r. cbn. repeat split; done.
  - subst new.
    destruct (acceptLoop_body_client s sk addr st (map Return clients ++ rest) Hbacklog)
      as (s1 & Hrun1 & Ht1 & Hc1 & Hb1 & Hp1 & Hsel1 & Hnet1).
    destruct (IH s1) as (s' & evs & Hloop & Ht & Hadded & Hc & Hp & Hsel & Hb & Hnet');
      [congruence|done|].
    exists s', ([EvAccept; EvLogDebug "New connection from ";
                 EvLogDebug "Client id: ";
                 EvAddConnection (ConnectionInfo_new sk addr
                                    (fst (cm_getNewClientId (connectionManager s))))]
                ++ evs).
    split; [|split; [|split; [|split; [|split; [|split; [|split]]]]]].
    + intros k. rewrite <- Hloop. cbn [length Nat.add acceptLoop].
      unfold bind at 1. unfold gets. rewrite decide_True by done.
      unfold bind at 1. now rewrite Hrun1.
    + now rewrite Ht, Ht1, <- app_assoc.
    + unfold added_connections in *. cbn. rewrite Hadded, Hc1, accepted_add. reflexivity.
    + rewrite Hc, Hc1, accepted_add. reflexivity.
    + rewrite Hp, Hp1. reflexivity.
    + congruence.
    + exact Hb.
    + exact Hnet'.
Qed.

(** X8.  The accept loop over a backlog.  With [networkState] at
    [Running] and a backlog that starts with [clients], the loop takes
    one pass per client: it registers, in order of arrival, the
    connection of each client's socket and address with the client id
    the registry hands out for it, and is still looping.  A client
    accepted later has a greater id than one accepted earlier, and
    greater than every registered id when those were all handed out
    before.  If the backlog ends there, the next [accept] blocks.  If
    an [accept] then fails, the exception leaves the loop: nothing
    catches it, nothing is logged, the clients accepted so far stay
    registered and [networkState] is still [Running]. *)
Theorem acceptLoop_drains_backlog
    (clients : list (Socket * Address * SocketState))
    (rest : list (result (Socket * Address * SocketState))) (s : State) :
  networkState s = Running ->
  backlog (os s) = map Return clients ++ rest ->
  let new := accepted (connectionManager s) clients in
  exists (s' : State) (evs : list Event),
    acceptLoop (length clients) s = (Return StillLooping, s') /\
    trace s' = trace s ++ evs /\
    added_connections evs = new /\
    map (fun c => (socket c, address c)) new = map fst clients /\
    (forall i j ci cj,
        new !! i = Some ci -> new !! j = Some cj -> (i < j)%nat ->
        clientNumber ci < clientNumber cj) /\
    (cm_ids_fresh (connectionManager s) ->
     forall sk c c', connections (connectionManager s) !! sk = Some c -> c' ∈ new ->
                     clientNumber c < clientNumber c') /\
    connections (connectionManager s')
      = foldl (fun m c => <[socket c := c]> m) (connections (connectionManager s)) new /\
    backlog (os s') = rest /\
    (rest = [] ->
     forall k, acceptLoop (length clients + S k) s
               = (Return Blocked, with_trace (trace s' ++ [EvAccept]) s')) /\
    (forall ex rest',
        rest = Raise ex :: rest' ->
        forall k, exists s'' : State,
          acceptLoop (length clients + S k) s = (Raise ex, s'') /\
          trace s'' = trace s' ++ [EvAccept] /\
          connectionManager s'' = connectionManager s' /\
          networkState s'' = Running).
Proof.
  intros Hnet Hbacklog new.
  destruct (acceptLoop_clients clients rest s Hnet Hbacklog)
    as (s' & evs & Hloop & Ht & Hadded & Hc & _ & _ & Hb & Hnet').
  fold new in Hadded, Hc.
  exists s', evs.
  split; [|split; [done|split; [done|split; [|split; [|split; [|split; [done|split;
    [done|split]]]]]]]].
  - specialize (Hloop 0%nat). rewrite Nat.add_0_r in Hloop. rewrite Hloop.
    cbn. unfold bind, gets. now rewrite decide_True.
  - apply accepted_clients.
  - apply accepted_ids_increase.
  - intros Hfresh sk c c' Hreg Hc'. apply accepted_ids_above in Hc'.
    specialize (Hfresh _ _ Hreg). lia.
  - intros -> k. rewrite Hloop. cbn [acceptLoop]. unfold bind at 1. unfold gets.
    rewrite decide_True by done.
    unfold acceptLoop_body, socket_accept. unfold_calls. cbn. now rewrite Hb.
  - intros ex rest' -> k. rewrite Hloop. cbn [acceptLoop]. unfold bind at 1. unfold gets.
    rewrite decide_True by done.
    unfold acceptLoop_body, socket_accept. unfold_calls. cbn. rewrite Hb.
    eexists. split; [reflexivity|]. now cbn.
Qed.

(** *** The main loop *)

(** X9.  The main loop only ticks the world.  Once [isRunning] is set
    the loop never finds it cleared: it goes on, as it does for every
    pass on a steady clock, or it ends in the [IOError] of a
    [time.sleep] that was handed a duration it cannot sleep.  After
    the [k] passes taken the world has been updated by [1.0] exactly
    [k] times, world and player synchronisations were sent in equal
    number and at most once per pass, the clock was read between three
    and five times per pass after the one reading that starts the
    update timer, and the registry, the network state, the peers and
    the backlog are as they were. *)
Theorem mainLoop_ticks_world (fuel : nat) (s : State) :
  isRunning s = true ->
  exists (out : outcome LoopEnd) (s' : State) (evs : list Event) (k : nat),
    mainLoop world_update clock fuel s = (out, s') /\
    (out = Return StillLooping /\ k = fuel \/
     out = Raise IOError /\ (1 <= k <= fuel)%nat) /\
    (steady_until clock (clock_reads (os s) + 1 + 5 * fuel) = true ->
     out = Return StillLooping) /\
    trace s' = trace s ++ evs /\
    world s' = Nat.iter k (world_update 1%float) (world s) /\
    count is_world_update evs = k /\
    count is_world_sync evs = count is_player_sync evs /\
    (count is_world_sync evs <= k)%nat /\
    connectionManager s' = connectionManager s /\
    networkState s' = networkState s /\
    isRunning s' = true /\
    peers (os s') = peers (os s) /\
    backlog (os s') = backlog (os s) /\
    (clock_reads (os s) + 1 + 3 * k <= clock_reads (os s')
     <= clock_reads (os s) + 1 + 5 * k)%nat.
Proof.
  intros Hrunning.
  destruct (mainLoop_while_run fuel (snd (timer_start clock UpdateTimer s)))
    as (out & s' & evs & k & Hrun & Hout & Hsteady & Ht & Hupdates & _ & Hsy & Hle & Hw
        & Hnet & Hr & Hcm & Hp & Hb & Hclock);
    [exact Hrunning|].
  exists out, s', (EvTimerStart UpdateTimer :: evs), k.
  split; [|split; [exact Hout|split; [|split]]].
  - unfold mainLoop. unfold bind at 1.
    change (timer_start clock UpdateTimer s)
      with (Done (Return tt), snd (timer_start clock UpdateTimer s)).
    exact Hrun.
  - intros H. apply Hsteady. eapply steady_until_le; [|exact H]. cbn. lia.
  - rewrite Ht. cbn. now rewrite <- app_assoc.
  - cbn in Hw, Hcm, Hnet, Hp, Hb, Hclock.
    assert (Hcount : count is_world_update (EvTimerStart UpdateTimer :: evs) = k).
    { unfold count. cbn. rewrite Hupdates. apply repeat_length. }
    repeat split; try done; lia.
Qed.

(** *** Threads taking turns *)

Lemma take_turn_keeps (t : Turn) (s : State) :
  let s' := take_turn processMessage world_update clock t s in
  (registry_ok (connectionManager s) -> registry_ok (connectionManager s')) /\
  exists evs, trace s' = trace s ++ evs /\ Forall dispatch_ok evs.
Proof.
  destruct t.
  - destruct (readThread_turn s) as [Hkeep Hevs].
    split; [now apply registry_ok_keeps|exact Hevs].
  - apply acceptLoop_turn.
  - destruct (mainLoop_turn s) as [Hkeep Hevs].
    split; [now apply registry_ok_keeps|exact Hevs].
Qed.

(** X10.  What holds under every schedule.  Let the read loop, the
    accept loop and the main loop take turns in any order, a turn
    being one test of the loop's condition and, when it holds, one
    pass.  Then the registry stays sound if it was: every connection
    is filed under its own socket, no two registered connections share
    a client id, and every registered id is below the next id to hand
    out.  This is the case from the constructor and socket setup on.
    Moreover every message that reaches the handler is well formed:
    the connection it comes with holds a payload of at least one byte,
    the message type is the first byte of that payload, between 0 and
    255, and the body is the rest of it. *)
Theorem schedule_keeps_registry (ts : list Turn) :
  (forall s : State,
      let s' := run_schedule processMessage world_update clock ts s in
      (registry_ok (connectionManager s) -> registry_ok (connectionManager s')) /\
      exists evs, trace s' = trace s ++ evs /\ Forall dispatch_ok evs) /\
  (forall ids addr port w o,
      registry_ok
        (connectionManager
           (run_schedule processMessage world_update clock ts
              (snd (setupSocket (init ids addr port w o)))))).
Proof.
  assert (Hall : forall s : State,
             let s' := run_schedule processMessage world_update clock ts s in
             (registry_ok (connectionManager s) -> registry_ok (connectionManager s')) /\
             exists evs, trace s' = trace s ++ evs /\ Forall dispatch_ok evs).
  { induction ts as [|t ts IH]; intros s; cbv zeta.
    - cbn. split; [done|]. exists []. now rewrite app_nil_r.
    - change (run_schedule processMessage world_update clock (t :: ts) s)
        with (run_schedule processMessage world_update clock ts
                (take_turn processMessage world_update clock t s)).
      destruct (take_turn_keeps t s) as [Hok1 (evs1 & Ht1 & Hd1)].
      destruct (IH (take_turn processMessage world_update clock t s))
        as [Hok (evs & Ht & Hd)].
      split; [auto|]. exists (evs1 ++ evs).
      split; [now rewrite Ht, Ht1, app_assoc|now apply Forall_app]. }
  split; [exact Hall|].
  intros ids addr port w o. apply Hall.
  destruct (setupSocket_run (init ids addr port w o : State))
    as (s1 & Hrun & _ & _ & _ & _ & Hcm & _).
  rewrite Hrun. cbn [snd]. rewrite Hcm.
  split; [apply cm_wf_new|]. split.
  - intros sk c H. cbn in H. now rewrite lookup_empty in H.
  - intros sk1 sk2 c1 c2 H. cbn in H. now rewrite lookup_empty in H.
Qed.


End ServerFacts.

(** ** The theorems on the scenarios *)

Lemma serving_wf (script : list arrival) : cm_wf (connectionManager (serving script)).
Proof.
  unfold serving. cbn. apply cm_wf_add. unfold cm_getNewClientId. cbn.
  exact (cm_wf_new counting).
Qed.


Lemma two_clients_wf : cm_wf (connectionManager two_clients).
Proof.
  unfold two_clients. cbn.
  apply cm_wf_add. unfold cm_getNewClientId. cbn.
  intros sk c Hc.
  apply (cm_wf_add client7 (ConnectionManager_new counting) (cm_wf_new counting) sk c Hc).
Qed.

Lemma two_clients_stall_free (skip : option Socket) : stall_free_but skip two_clients.
Proof.
  intros sk st _ Hst.
  change (peers (os two_clients))
    with (<[7%nat := peer [Data [x01; x00; x00; x00; x2a]] true false]>
            ({[ 9%nat := peer [Reset] true true ]} : gmap nat SocketState)) in Hst.
  apply lookup_insert_Some in Hst as [[_ <-]|[_ Hst]]; [cbn; no_stall|].
  apply lookup_singleton_Some in Hst as [_ <-]. cbn. no_stall.
Qed.

Lemma stalled_client_wf : cm_wf (connectionManager stalled_client).
Proof. exact two_clients_wf. Qed.

Lemma stalled_client_others : stall_free_but (Some 9%nat) stalled_client.
Proof.
  intros sk st Hne Hst.
  change (peers (os stalled_client))
    with (<[7%nat := peer [Data [x01; x00; x00; x00; x2a]] true false]>
            ({[ 9%nat := peer [Data [x05; x00; x00; x00]; Stall] true false ]}
             : gmap nat SocketState)) in Hst.
  apply lookup_insert_Some in Hst as [[_ <-]|[_ Hst]]; [cbn; no_stall|].
  apply lookup_singleton_Some in Hst as [<- _]. done.
Qed.

(** C1 on the frame [05 00 00 00 01 AA BB CC DD]: the message of type
    1 with body [AA BB CC DD] is dispatched with the sending
    connection. *)
Lemma doProtocol_dispatches_frame_scenario :
  let s := serving [Data scenario_frame] in
  exists s' : ServerState unit,
    doProtocol quiet_handler (Some client7) s = (Return tt, s') /\
    trace s' = trace s ++
      [EvDoProtocol (Some 7%nat); EvRecv 7%nat 4; EvRecv 7%nat 5;
       EvProcessMessage {| messageType := 1; body := [xaa; xbb; xcc; xdd] |}
         (set_data [x01; xaa; xbb; xcc; xdd] client7)].
Proof.
  intros s.
  destruct (doProtocol_dispatches_frame quiet_handler s client7
              (peer [Data scenario_frame] true false)
              [x05; x00; x00; x00] [x01; xaa; xbb; xcc; xdd]
              [Data [x01; xaa; xbb; xcc; xdd]] [] 5)
    as (b & rest & s' & Hpayload & _ & Hrun & Htrace & _);
    try reflexivity; [lia|].
  injection Hpayload as <- <-.
  exists s'. split; [exact Hrun|]. rewrite Htrace. reflexivity.
Defined.

(** C2 (amended) on five clients: one sends two bytes and closes; the
    others send a header announcing five bytes, and then one closes,
    one loses the connection, one stays silent and one sends two
    bytes. *)
Lemma doProtocol_short_read_scenarios :
  (let s := serving [Data [x05; x00]] in
   let s' := snd (doProtocol quiet_handler (Some client7) s) in
   trace s' = trace s ++
     [EvDoProtocol (Some 7%nat); EvRecv 7%nat 4;
      EvLogDebug "Got invalid header...disconnecting client ";
      EvRemoveConnection (Some 7%nat); EvDisconnected 7%nat] /\
   ~ registered 7%nat s') /\
  (let s := serving [Data [x05; x00; x00; x00]] in
   let s' := snd (doProtocol quiet_handler (Some client7) s) in
   trace s' = trace s ++
     [EvDoProtocol (Some 7%nat); EvRecv 7%nat 4; EvRecv 7%nat 5;
      EvLogError IndexError; EvRemoveConnection (Some 7%nat)] /\
   ~ registered 7%nat s') /\
  (let s := serving [Data [x05; x00; x00; x00]; Reset] in
   let s' := snd (doProtocol quiet_handler (Some client7) s) in
   trace s' = trace s ++
     [EvDoProtocol (Some 7%nat); EvRecv 7%nat 4; EvRecv 7%nat 5;
      EvLogError SocketError; EvRemoveConnection (Some 7%nat)] /\
   ~ registered 7%nat s') /\
  (let s := serving [Data [x05; x00; x00; x00]; Stall] in
   let s' := snd (doProtocol quiet_handler (Some client7) s) in
   fst (doProtocol quiet_handler (Some client7) s) = Blocks /\
   trace s' = trace s ++
     [EvDoProtocol (Some 7%nat); EvRecv 7%nat 4; EvRecv 7%nat 5] /\
   connectionManager s' = connectionManager s) /\
  (let s := serving [Data [x05; x00; x00; x00]; Data [x01; xaa]] in
   let s' := snd (doProtocol quiet_handler (Some client7) s) in
   fst (doProtocol quiet_handler (Some client7) s) = Return tt /\
   trace s' = trace s ++
     [EvDoProtocol (Some 7%nat); EvRecv 7%nat 4; EvRecv 7%nat 5;
      EvProcessMessage {| messageType := 1; body := [xaa] |}
        (set_data [x01; xaa] client7)]).
Proof.
  split; [|split; [|split; [|split]]].
  - intros s s'.
    destruct (doProtocol_short_read quiet_handler s client7
                (peer [Data [x05; x00]] true false) eq_refl) as (Hshort & _).
    destruct (Hshort [x05; x00] [] eq_refl) as (_ & Htrace & _ & _ & _ & Hgone);
      [cbn; lia|].
    split; [exact Htrace|exact Hgone].
  - intros s s'.
    destruct (doProtocol_short_read quiet_handler s client7
                (peer [Data [x05; x00; x00; x00]] true false) eq_refl)
      as (_ & Hclosed & _).
    destruct (Hclosed [x05; x00; x00; x00] [] 5 [] eq_refl eq_refl eq_refl)
      as (_ & Htrace & _ & _ & _ & Hgone); [lia|reflexivity|].
    split; [exact Htrace|exact Hgone].
  - intros s s'.
    destruct (doProtocol_short_read quiet_handler s client7
                (peer [Data [x05; x00; x00; x00]; Reset] true false) eq_refl)
      as (_ & _ & Hfailed & _).
    destruct (Hfailed [x05; x00; x00; x00] [Reset] 5 [] SocketError
                eq_refl eq_refl eq_refl)
      as (_ & Htrace & _ & _ & _ & Hgone); [lia|reflexivity|].
    split; [exact Htrace|exact Hgone].
  - intros s s'.
    destruct (doProtocol_short_read quiet_handler s client7
                (peer [Data [x05; x00; x00; x00]; Stall] true false) eq_refl)
      as (_ & _ & _ & Hsilent & _).
    destruct (Hsilent [x05; x00; x00; x00] [Stall] 5 [Stall] eq_refl eq_refl eq_refl)
      as (Hout & Htrace & _ & _ & _ & Hcm); [lia|reflexivity|].
    split; [exact Hout|]. split; [exact Htrace|exact Hcm].
  - intros s s'.
    destruct (doProtocol_short_read quiet_handler s client7
                (peer [Data [x05; x00; x00; x00]; Data [x01; xaa]] true false) eq_refl)
      as (_ & _ & _ & _ & Hpartial).
    destruct (Hpartial [x05; x00; x00; x00] [Data [x01; xaa]] 5 [x01; xaa] []
                eq_refl eq_refl eq_refl eq_refl)
      as (Hout & Htrace & _); [cbn; lia|cbn; lia|].
    split; [exact Hout|exact Htrace].
Defined.

(** C2 as stated fails: a client that sends a header announcing five
    bytes and then closes delivers fewer than five payload bytes, yet
    no disconnect notice is sent for it. *)
Lemma short_body_gets_no_notice :
  let s := serving [Data [x05; x00; x00; x00]] in
  let s' := snd (doProtocol quiet_handler (Some client7) s) in
  let evs := drop (length (trace s)) (trace s') in
  unpack_HEADER_FORMAT [x05; x00; x00; x00] = Return 5 /\
  recv_from 5 [] = (Return [], []) /\
  evs = [EvDoProtocol (Some 7%nat); EvRecv 7%nat 4; EvRecv 7%nat 5;
         EvLogError IndexError; EvRemoveConnection (Some 7%nat)] /\
  count is_notice evs = 0%nat /\
  count is_notice evs <> 1%nat.
Proof. vm_compute. repeat split; try reflexivity. discriminate. Qed.

(** A client that delivers two of five announced payload bytes: the
    two bytes are decoded and dispatched as a message, and the
    connection stays registered. *)
Example short_body_partial_is_dispatched :
  let s := serving [Data [x05; x00; x00; x00]; Data [x01; xaa]] in
  let s' := snd (doProtocol quiet_handler (Some client7) s) in
  drop (length (trace s)) (trace s') =
    [EvDoProtocol (Some 7%nat); EvRecv 7%nat 4; EvRecv 7%nat 5;
     EvProcessMessage {| messageType := 1; body := [xaa] |}
       (set_data [x01; xaa] client7)] /\
  connections (connectionManager s') !! 7%nat = Some (set_data [x01; xaa] client7).
Proof. vm_compute. split; reflexivity. Qed.



(** C4 on a pass with two registered clients, where socket 9 is
    reported both with an error condition and ready for reading: its
    connection is removed first, the protocol step then runs on no
    connection for it, and socket 7 is served once. *)
Lemma readThread_body_order_scenario :
  cm_wf (connectionManager two_clients) /\
  select_failure (os two_clients) = None /\
  stall_free two_clients /\
  exists (s_err s' : ServerState unit) (evs : list Event),
    readThread_body quiet_handler two_clients = (Return tt, s') /\
    trace s_err = trace two_clients ++
      [EvSelect [9%nat; 7%nat]; EvRemoveConnection (Some 9%nat)] /\
    ~ registered 9%nat s_err /\
    trace s' = trace s_err ++ evs /\
    protocol_calls evs = [None; Some 7%nat] /\
    Forall (fun e => ~ mentions 9%nat e) evs.
Proof.
  split; [exact two_clients_wf|]. split; [reflexivity|].
  split; [apply two_clients_stall_free|].
  destruct (readThread_body_order quiet_handler two_clients two_clients_wf)
    as (_ & Hpass).
  destruct (Hpass eq_refl)
    as (out & s_err & s' & evs & Hrun & _ & Hret & _ & Htrace1 & Hgone & _ & Htrace & _
        & Hcalls & _ & _ & Hquiet & _).
  pose proof (Hret (two_clients_stall_free None)) as ->.
  exists s_err, s', evs.
  split; [exact Hrun|]. split; [exact Htrace1|].
  split; [apply Hgone; vm_compute; set_solver|].
  split; [exact Htrace|]. split; [exact (Hcalls eq_refl)|].
  apply Hquiet. vm_compute. set_solver.
Defined.

(** A pass whose [select] raises ends with that exception, before
    anything is removed or served. *)
Example readThread_body_select_raises :
  let s := with_os (os_with_select_outcomes [Some SelectError] (os two_clients))
             two_clients in
  let s' := snd (readThread_body quiet_handler s) in
  fst (readThread_body quiet_handler s) = Raise SelectError /\
  drop (length (trace s)) (trace s') = [EvSelect [9%nat; 7%nat]] /\
  connectionManager s' = connectionManager s /\
  fst (readThread quiet_handler 4 s) = Raise SelectError.
Proof. vm_compute. repeat split; reflexivity. Qed.

(** The per-tick budget at 60 frames a second. *)
Example tick_budget_value : tick_budget = 0x1.0aaaaaaaaaaabp+4%float.
Proof. reflexivity. Qed.


(** A pass of the main loop on a clock that advances by 4 per reading
    and an update timer started 4000 earlier: the full synchronisation
    is sent, the update timer is restarted at the third reading, and
    the pass sleeps for the rest of the budget, computed from the
    fifth reading. *)
Example mainLoop_body_pass :
  let s := with_updateTimer {| startTicks := (-4000)%float |}
             (fresh_server (os_of ∅ [] None)) in
  let s' := snd (mainLoop_body still_world clock4 s) in
  fst (mainLoop_body still_world clock4 s) = Return tt /\
  drop (length (trace s)) (trace s') =
    [EvTimerStart FpsTimer; EvWorldUpdate 1%float;
     EvSendWorldUpdate; EvSyncPlayers; EvTimerStart UpdateTimer;
     EvSleep (PrimFloat.div (PrimFloat.sub tick_budget 16%float) 1000%float)] /\
  updateTimer s' = {| startTicks := 8%float |}.
Proof. vm_compute. repeat split; reflexivity. Qed.

(** A pass that overruns the budget does not sleep. *)
Example mainLoop_body_overrun :
  let s := fresh_server (os_of ∅ [] None) in
  let slow (n : nat) := PrimFloat.mul 20%float (clock5 n) in
  let s' := snd (mainLoop_body still_world slow s) in
  fst (mainLoop_body still_world slow s) = Return tt /\
  drop (length (trace s)) (trace s') = [EvTimerStart FpsTimer; EvWorldUpdate 1%float].
Proof. vm_compute. split; reflexivity. Qed.

(** C7 as stated fails: on a server whose bind succeeds, the network
    state goes from [Closed] to [Running] without passing through
    [Starting]. *)
Lemma setupSocket_skips_Starting :
  let s := fresh_server (os_of ∅ [] None) in
  let s' := snd (setupSocket s) in
  networkState s = Closed /\
  networkState s :: lifecycle (drop (length (trace s)) (trace s')) = [Closed; Running] /\
  ~ In Starting (networkState s :: lifecycle (trace s')).
Proof.
  vm_compute. repeat split; try reflexivity.
  intros [H|[H|[]]]; discriminate.
Qed.

(** A failing bind leaves the network state at [Error]. *)
Example setupSocket_bind_failure :
  let s := fresh_server (os_of ∅ [] (Some SocketError)) in
  let s' := snd (setupSocket s) in
  networkState s' = Error /\
  drop (length (trace s)) (trace s') =
    [EvSocket; EvBind "0.0.0.0" 7777; EvLogError SocketError; EvNetworkState Error].
Proof. vm_compute. split; reflexivity. Qed.

(** C8 on a running server with one client waiting in the backlog. *)
Lemma acceptLoop_registers_scenario :
  let waiting := Return (7%nat, ("10.0.0.1"%string, 4000), peer [] true false) in
  let s := with_networkState Running (fresh_server (os_of ∅ [waiting] None)) in
  exists s' : ServerState unit,
    acceptLoop_body s = (Return true, s') /\
    connections (connectionManager s') = {[ 7%nat := client7 ]} /\
    trace s' = trace s ++ [EvAccept; EvLogDebug "New connection from ";
                           EvLogDebug "Client id: "; EvAddConnection client7] /\
    acceptLoop 1 s = (Return StillLooping, s') /\
    acceptLoop 1 (with_networkState Closing s') = (Return Exited, with_networkState Closing s').
Proof.
  intros waiting s.
  destruct (@acceptLoop_registers unit) as [Hpass Hexit].
  destruct (Hpass s 7%nat ("10.0.0.1"%string, 4000) (peer [] true false) [] 0%nat
              eq_refl eq_refl)
    as (s' & Hrun & _ & _ & _ & Hconns & Htrace & _ & Hnet & Hloop).
  exists s'. split; [exact Hrun|]. split; [exact Hconns|]. split; [exact Htrace|].
  split.
  - rewrite Hloop. cbn. unfold bind, gets. now rewrite Hnet.
  - now apply Hexit.
Defined.

(** C9 on the length prefix [FF FF FF FF], which decodes to -1. *)
Lemma doProtocol_nonpositive_length_scenario :
  let s := serving [Data [xff; xff; xff; xff]] in
  let s' := snd (doProtocol quiet_handler (Some client7) s) in
  unpack_HEADER_FORMAT [xff; xff; xff; xff] = Return (-1) /\
  trace s' = trace s ++
    [EvDoProtocol (Some 7%nat); EvRecv 7%nat 4; EvRecv 7%nat (-1);
     EvLogError ValueError; EvRemoveConnection (Some 7%nat)] /\
  ~ registered 7%nat s'.
Proof.
  intros s s'. split; [reflexivity|].
  destruct (doProtocol_nonpositive_length quiet_handler s client7
              (peer [Data [xff; xff; xff; xff]] true false)
              [xff; xff; xff; xff] [] (-1) eq_refl eq_refl eq_refl eq_refl)
    as (ex & _ & Htrace & Hneg & _ & _ & _ & _ & Hgone); [lia|].
  rewrite Hneg in Htrace by lia.
  split; [exact Htrace|exact Hgone].
Defined.

(** A length prefix of zero on a connection that fails next: [recv(0)]
    returns the empty string without touching the connection, and the
    handler logs [IndexError]. *)
Example zero_length_on_pending_reset :
  let s := serving [Data [x00; x00; x00; x00]; Reset] in
  let s' := snd (doProtocol quiet_handler (Some client7) s) in
  drop (length (trace s)) (trace s') =
    [EvDoProtocol (Some 7%nat); EvRecv 7%nat 4; EvRecv 7%nat 0;
     EvLogError IndexError; EvRemoveConnection (Some 7%nat)].
Proof. vm_compute. reflexivity. Qed.


(** On a clock that advances by 6 per reading, [start] ends in the
    [IOError] of the first sleep, after one update of the world. *)
Example start_on_a_fast_clock :
  let s := fresh_server (os_of ∅ [] None) in
  let s' := snd (start still_world clock6 3 s) in
  fst (start still_world clock6 3 s) = Raise IOError /\
  isRunning s' = true /\
  List.filter is_world_update (drop (length (trace s)) (trace s')) =
    [EvWorldUpdate 1%float].
Proof. vm_compute. repeat split; reflexivity. Qed.

(** ** The further properties on the scenarios *)

(** X1 on the headers [05 00 00 00] and [FF FF FF FF] and on a
    two-byte string. *)
Lemma unpack_HEADER_FORMAT_signed32_scenario :
  (exists L : Z, unpack_HEADER_FORMAT [xff; xff; xff; xff] = Return L /\ L < 0) /\
  (unpack_HEADER_FORMAT [x05; x00; x00; x00] = Return 5 /\
   forall h, unpack_HEADER_FORMAT h = Return 5 -> h = [x05; x00; x00; x00]) /\
  length [x05; x00] <> 4%nat /\
  unpack_HEADER_FORMAT [x05; x00] = Raise StructError.
Proof.
  destruct unpack_HEADER_FORMAT_signed32 as (Hdec & Hinj & Hlen).
  split; [|split; [|split]].
  - destruct (Hdec xff xff xff xff) as (L & HL & _ & Hneg & _).
    exists L. split; [exact HL|]. apply Hneg. vm_compute. discriminate.
  - split; [reflexivity|]. intros h Hh. exact (Hinj h [x05; x00; x00; x00] 5 Hh eq_refl).
  - discriminate.
  - apply Hlen. discriminate.
Defined.

(** X2 on a client that announces five bytes and sends two. *)
Lemma doProtocol_truncated_payload_scenario :
  let s := serving [Data [x05; x00; x00; x00]; Data [x01; xaa]; Data [x07; x00; x00; x00]] in
  let s' := snd (doProtocol quiet_handler (Some client7) s) in
  trace s' = trace s ++
    [EvDoProtocol (Some 7%nat); EvRecv 7%nat 4; EvRecv 7%nat 5;
     EvProcessMessage {| messageType := 1; body := [xaa] |}
       (set_data [x01; xaa] client7)] /\
  connections (connectionManager s') !! 7%nat = Some (set_data [x01; xaa] client7) /\
  peers (os s') !! 7%nat = Some (peer [Data [x07; x00; x00; x00]] true false).
Proof.
  intros s s'.
  destruct (doProtocol_truncated_payload quiet_handler s client7
              (peer [Data [x05; x00; x00; x00]; Data [x01; xaa];
                     Data [x07; x00; x00; x00]] true false)
              [x05; x00; x00; x00] [x01; xaa]
              [Data [x01; xaa]; Data [x07; x00; x00; x00]]
              [Data [x07; x00; x00; x00]] 5 tt)
    as (Htrace & _ & _ & Hreg & Hpeer); try reflexivity; [cbn; lia|].
  split; [exact Htrace|]. split; [exact Hreg|exact Hpeer].
Defined.

(** X3 on the frame of the scenario: one dispatch, no removal, no
    notice, and the connection is still registered. *)
Lemma doProtocol_keeps_or_removes_scenario :
  let s := serving [Data scenario_frame] in
  let s' := snd (doProtocol quiet_handler (Some client7) s) in
  let evs := drop (length (trace s)) (trace s') in
  connections (connectionManager s) !! 7%nat = Some client7 /\
  fst (doProtocol quiet_handler (Some client7) s) = Return tt /\
  registered 7%nat s' /\
  count is_dispatch evs = 1%nat /\
  count is_removal evs = 0%nat /\
  count is_notice evs = 0%nat.
Proof.
  intros s s' evs. split; [reflexivity|]. split; [reflexivity|].
  destruct (doProtocol_keeps_or_removes quiet_handler s client7 eq_refl)
    as (_ & _ & _ & _ & _ & Hkept & _).
  assert (Hreg : registered 7%nat s').
  { exists (set_data [x01; xaa; xbb; xcc; xdd] client7). reflexivity. }
  split; [exact Hreg|]. destruct (Hkept eq_refl Hreg) as (H1 & H2 & H3 & _). auto.
Defined.

(** X4 on the server with two clients: the read loop takes both passes
    it has fuel for, leaves the network state alone and hands out no
    client id. *)
Lemma readThread_only_serves_scenario :
  networkState two_clients = Running /\
  selects_well (os two_clients) /\
  stall_free two_clients /\
  let s' := snd (readThread quiet_handler 2 two_clients) in
  fst (readThread quiet_handler 2 two_clients) = Return StillLooping /\
  networkState s' = Running /\
  nextClientId (connectionManager s') = 2.
Proof.
  assert (Hwell : selects_well (os two_clients)) by constructor.
  split; [reflexivity|]. split; [exact Hwell|].
  split; [apply two_clients_stall_free|].
  destruct (readThread_only_serves quiet_handler two_clients) as (_ & _ & Hloop).
  destruct (Hloop 2%nat) as ((Hnet & _ & _ & _ & _ & _ & _ & Hid & _) & _ & _ & Hgoes).
  split; [exact (Hgoes eq_refl Hwell (two_clients_stall_free None))|].
  split; [exact Hnet|exact Hid].
Defined.


(** X6 on a registered client whose socket is not ready: the pass
    leaves the frame with the peer. *)
Lemma readThread_body_skips_unready_scenario :
  let waiting := peer [Data scenario_frame] false false in
  let s := with_os (os_of {[ 7%nat := waiting ]} [] None) (serving []) in
  let s' := snd (readThread_body quiet_handler s) in
  fst (readThread_body quiet_handler s) = Return tt /\
  exists evs : list Event,
    trace s' = trace s ++ evs /\
    count (is_recv_on 7%nat) evs = 0%nat /\
    dispatches_for 7%nat evs = [] /\
    peers (os s') !! 7%nat = Some waiting /\
    connections (connectionManager s') !! 7%nat = Some client7.
Proof.
  intros waiting s s'.
  destruct (readThread_body_skips_unready quiet_handler s 7%nat)
    as (evs & Htrace & Hr & Hd & _ & Hp & Hc & _ & Hret).
  - exact (serving_wf []).
  - reflexivity.
  - split.
    + apply Hret; [reflexivity|]. intros sk st _ Hst.
      change (peers (os s)) with ({[ 7%nat := waiting ]} : gmap nat SocketState) in Hst.
      apply lookup_singleton_Some in Hst as [_ <-]. cbn. no_stall.
    + exists evs. split; [exact Htrace|].
      split; [exact Hr|]. split; [exact Hd|]. split; [exact Hp|exact Hc].
Defined.


(** X8 on a backlog of two clients and then a failing [accept]: both
    are registered, the second with the greater id, and the third pass
    ends the loop with the exception while the network state is still
    [Running]. *)
Lemma acceptLoop_drains_backlog_scenario :
  let first := (7%nat, ("10.0.0.1"%string, 4000), peer [] true false) in
  let second := (9%nat, ("10.0.0.2"%string, 4001), peer [] true false) in
  let s := with_networkState Running
             (fresh_server (os_of ∅ [Return first; Return second; Raise SocketError] None)) in
  exists (s' s'' : ServerState unit) (evs : list Event),
    acceptLoop 2 s = (Return StillLooping, s') /\
    trace s' = trace s ++ evs /\
    added_connections evs = [client7; client9] /\
    clientNumber client7 < clientNumber client9 /\
    acceptLoop 3 s = (Raise SocketError, s'') /\
    connectionManager s'' = connectionManager s' /\
    networkState s'' = Running.
Proof.
  intros first second s.
  destruct (acceptLoop_drains_backlog [first; second] [Raise SocketError] s eq_refl eq_refl)
    as (s' & evs & Hrun & Htrace & Hadded & _ & Hinc & _ & _ & _ & _ & Hfail).
  destruct (Hfail SocketError [] eq_refl 0%nat) as (s'' & Hrun' & _ & Hcm & Hnet).
  exists s', s'', evs. split; [exact Hrun|]. split; [exact Htrace|].
  split; [exact Hadded|].
  split; [exact (Hinc 0%nat 1%nat client7 client9 eq_refl eq_refl ltac:(lia))|].
  split; [exact Hrun'|]. split; [exact Hcm|exact Hnet].
Defined.

(** The same backlog on a registry that numbers its clients by tens. *)
Example acceptLoop_by_tens :
  let first := (7%nat, ("10.0.0.1"%string, 4000), peer [] true false) in
  let second := (9%nat, ("10.0.0.2"%string, 4001), peer [] true false) in
  let s := with_networkState Running
             (init by_tens "0.0.0.0" 7777 tt (os_of ∅ [Return first; Return second] None)) in
  map clientNumber (added_connections (trace (snd (acceptLoop 2 s)))) = [100; 110] /\
  fst (acceptLoop 3 s) = Return Blocked.
Proof. vm_compute. split; reflexivity. Qed.

(** X9 on three passes of the main loop of a server without clients,
    on a steady clock. *)
Lemma mainLoop_ticks_world_scenario :
  let s := with_isRunning true (fresh_server (os_of ∅ [] None)) in
  steady_until clock4 (clock_reads (os s) + 1 + 5 * 3) = true /\
  exists (s' : ServerState unit) (evs : list Event),
    mainLoop still_world clock4 3 s = (Return StillLooping, s') /\
    trace s' = trace s ++ evs /\
    count is_world_update evs = 3%nat /\
    connectionManager s' = connectionManager s /\
    networkState s' = Closed /\
    (10 <= clock_reads (os s') <= 16)%nat.
Proof.
  intros s.
  assert (Hsteady : steady_until clock4 (clock_reads (os s) + 1 + 5 * 3) = true)
    by (vm_compute; reflexivity).
  split; [exact Hsteady|].
  destruct (mainLoop_ticks_world still_world clock4 3 s eq_refl)
    as (out & s' & evs & k & Hrun & Hout & Hgoes & Htrace & _ & Hu & _ & _ & Hcm & Hnet
        & _ & _ & _ & Hclock).
  pose proof (Hgoes Hsteady) as ->.
  destruct Hout as [[_ ->]|[Hout _]]; [|discriminate Hout].
  exists s', evs. split; [exact Hrun|]. split; [exact Htrace|].
  split; [exact Hu|]. split; [exact Hcm|]. split; [exact Hnet|exact Hclock].
Defined.

(** X10 on a server that was set up with one client waiting: after an
    accept turn, two read turns and a main turn the registry is
    sound. *)
Lemma schedule_keeps_registry_scenario :
  let waiting := Return (7%nat, ("10.0.0.1"%string, 4000),
                         peer [Data scenario_frame] true false) in
  let s := snd (setupSocket (fresh_server (os_of ∅ [waiting] None))) in
  let s' := run_schedule quiet_handler still_world clock5
              [AcceptTurn; ReadTurn; MainTurn; ReadTurn] s in
  registry_ok (connectionManager s) /\
  registry_ok (connectionManager s') /\
  exists evs, trace s' = trace s ++ evs /\ Forall dispatch_ok evs.
Proof.
  intros waiting s s'.
  assert (Hs : registry_ok (connectionManager s)).
  { exact (proj2 (schedule_keeps_registry quiet_handler still_world clock5 [])
             counting "0.0.0.0"%string 7777 tt (os_of ∅ [waiting] None)). }
  split; [exact Hs|].
  destruct (proj1 (schedule_keeps_registry quiet_handler still_world clock5
                     [AcceptTurn; ReadTurn; MainTurn; ReadTurn]) s) as [Hok Hevs].
  split; [exact (Hok Hs)|exact Hevs].
Defined.


(** X13 on the server with two clients where the peer of socket 9 has
    sent a header announcing five bytes and stays silent: the pass and
    the read loop are stuck in the [recv] of the payload, and socket
    7, which comes after socket 9, is neither read nor handed to the
    protocol step. *)
Lemma readThread_body_stalled_peer_scenario :
  exists (s' : ServerState unit) (evs : list Event),
    readThread_body quiet_handler stalled_client = (Blocks, s') /\
    trace s' = trace stalled_client ++ evs ++
      [EvDoProtocol (Some 9%nat); EvRecv 9%nat 4; EvRecv 9%nat 5] /\
    connections (connectionManager s') !! 9%nat = Some client9 /\
    count (is_recv_on 7%nat)
      (evs ++ [EvDoProtocol (Some 9%nat); EvRecv 9%nat 4; EvRecv 9%nat 5]) = 0%nat /\
    readThread quiet_handler 3 stalled_client = (Blocks, s').
Proof.
  destruct (readThread_body_stalled_peer quiet_handler stalled_client client9
              (peer [Data [x05; x00; x00; x00]; Stall] true false)
              [x05; x00; x00; x00] [Stall] [Stall] 5)
    as (s' & evs & before & after & Hrun & Hsplit & Htrace & Hc & Hafter & Hloop);
    try reflexivity.
  - exact stalled_client_others.
  - exact stalled_client_wf.
  - assert (Hin : 7%nat ∈ after).
    { assert (Hreads : before ++ 9%nat :: after = [9%nat; 7%nat])
        by (etrans; [symmetry; exact Hsplit|vm_compute; reflexivity]).
      destruct before as [|b before]; [injection Hreads as ->; now left|].
      exfalso. injection Hreads as -> Hreads.
      destruct before as [|b before]; [discriminate Hreads|].
      injection Hreads as -> Hreads. destruct before; discriminate Hreads. }
    destruct (Hafter _ Hin) as (Hcount & _).
    exists s', evs. split; [exact Hrun|]. split; [exact Htrace|].
    split; [exact Hc|]. split; [exact Hcount|]. exact (Hloop 2%nat eq_refl).
Defined.
